(** * image-resizer: a shallow embedding of [folderResizer.py] and
      [imageResizer.py], and the properties of the resize-dispatch workflow.

    The two Python modules build an [ffmpeg] command line per image and fan
    the jobs out over a process pool.  The embedding has three layers:

    - [Py]: the fragment of the Python runtime the program touches: [str]
      operations, [pathlib.PurePosixPath] (CPython 3.4 - 3.13 semantics of
      [name], [stem], [suffix], [as_posix]), [Path.glob] with [fnmatch]
      wildcards, [os.mkdir], [print], [exit], [subprocess.run] and
      [multiprocessing.Pool.starmap], over an explicit world (file system and
      console);
    - [FFmpeg]: the documented meaning of the [scale] filter argument that
      the program hands to the external tool;
    - [folderResizer], [imageResizer]: the two source files, statement by
      statement.

    The path flavour is POSIX: separators are [/] and glob matching is
    case-sensitive, as [pathlib] does on Linux and macOS. *)

From Stdlib Require Import ZArith String Ascii List DecimalString DecimalPos DecimalZ Permutation Lia.
From stdpp Require Import base decidable option list strings gmap sets.

Local Open Scope string_scope.
Local Open Scope Z_scope.

(* ===================================================================== *)
(** * The Python runtime fragment *)
(* ===================================================================== *)

Module Py.

(** ** [str] *)

(** [len(s)] *)
Definition len (s : string) : Z := Z.of_nat (String.length s).

(** [s.rfind(c)]: the highest index of [c] in [s], or [-1]. *)
Fixpoint rfind (c : ascii) (s : string) : Z :=
  match s with
  | EmptyString => -1
  | String a s' =>
      let r := rfind c s' in
      if 0 <=? r then r + 1 else if Ascii.eqb a c then 0 else -1
  end.

(** [s[i:]] and [s[:i]] for [0 <= i]. *)
Fixpoint drop (n : nat) (s : string) : string :=
  match n, s with
  | O, _ => s
  | S _, EmptyString => EmptyString
  | S n', String _ s' => drop n' s'
  end.

Fixpoint take (n : nat) (s : string) : string :=
  match n, s with
  | O, _ => EmptyString
  | S _, EmptyString => EmptyString
  | S n', String a s' => String a (take n' s')
  end.

Definition slice_from (i : Z) (s : string) : string := drop (Z.to_nat i) s.
Definition slice_to (i : Z) (s : string) : string := take (Z.to_nat i) s.

(** [c in s] *)
Fixpoint contains (c : ascii) (s : string) : bool :=
  match s with
  | EmptyString => false
  | String a s' => Ascii.eqb a c || contains c s'
  end.

(** [s.endswith(t)] *)
Definition endswith (s t : string) : bool :=
  let n := String.length s in
  let m := String.length t in
  (m <=? n)%nat && String.eqb (drop (n - m) s) t.

(** [s.split(sep)] for a one-character separator: never the empty list. *)
Fixpoint split (sep : ascii) (s : string) : list string :=
  match s with
  | EmptyString => [EmptyString]
  | String a s' =>
      if Ascii.eqb a sep then EmptyString :: split sep s'
      else match split sep s' with
           | [] => [String a EmptyString]
           | w :: ws => String a w :: ws
           end
  end.

(** [sep.join(l)] *)
Fixpoint join (sep : string) (l : list string) : string :=
  match l with
  | [] => EmptyString
  | [x] => x
  | x :: l' => x ++ sep ++ join sep l'
  end.

(** [s.lstrip(c)] *)
Fixpoint lstrip (c : ascii) (s : string) : string :=
  match s with
  | EmptyString => EmptyString
  | String a s' => if Ascii.eqb a c then lstrip c s' else s
  end.

(** [str(z)], also what [f"{z}"] interpolates for an [int]. *)
Definition str_of_int (z : Z) : string := NilZero.string_of_int (Z.to_int z).

(** ** [pathlib.PurePosixPath] *)

(** A parsed path: [root] is [""], ["/"] or ["//"]; [parts] are the
    components after the root (CPython keeps the root as the first element
    of [_parts]; it is kept apart here). *)
Record Path := mkPath { root : string; parts : list string }.

#[global] Instance Path_eq_dec : EqDecision Path.
Proof. solve_decision. Defined.

(** [_PosixFlavour.splitroot] *)
Definition splitroot (part : string) : string * string :=
  match part with
  | String "/" _ =>
      let stripped := lstrip "/" part in
      if len part - len stripped =? 2 then ("//", stripped) else ("/", stripped)
  | _ => ("", part)
  end.

(** [Path(s)]: [parse_parts] on a single argument. Empty components and
    ["."] components are dropped. *)
Definition PurePath (s : string) : Path :=
  let '(r, rel) := splitroot s in
  mkPath r (filter (fun x => x <> "" /\ x <> ".") (split "/" rel)).

(** [str(p)] and [p.as_posix()] (the same on the POSIX flavour). *)
Definition as_posix (p : Path) : string :=
  let s := root p ++ join "/" (parts p) in
  if String.eqb s "" then "." else s.

(** [p.name] *)
Definition name (p : Path) : string := List.last (parts p) "".

(** [p.suffix] *)
Definition suffix (p : Path) : string :=
  let name := name p in
  let i := rfind "." name in
  if (0 <? i) && (i <? len name - 1) then slice_from i name else "".

(** [p.stem] *)
Definition stem (p : Path) : string :=
  let name := name p in
  let i := rfind "." name in
  if (0 <? i) && (i <? len name - 1) then slice_to i name else name.

(** [p._make_child_relpath(name)]: the child a directory scan yields. *)
Definition make_child_relpath (p : Path) (n : string) : Path :=
  mkPath (root p) (parts p ++ [n]).

(** ** [fnmatch] and [Path.glob] *)

(** The wildcard language of [fnmatch.translate], restricted to what the
    program's patterns use: [*] (any run of characters), [?] (one
    character) and literal characters. Bracket classes do not occur in the
    patterns of the program and are read as literals here. *)
Inductive wild := Star | AnyChar | Lit (c : ascii).

Fixpoint translate (pat : string) : list wild :=
  match pat with
  | EmptyString => []
  | String "*" pat' => Star :: translate pat'
  | String "?" pat' => AnyChar :: translate pat'
  | String c pat' => Lit c :: translate pat'
  end.

(** [re.fullmatch] of a translated pattern against a name. *)
Fixpoint fullmatch (p : list wild) (s : string) {struct p} : bool :=
  match p with
  | [] => String.eqb s ""
  | Star :: p' =>
      (fix star (s : string) : bool :=
         fullmatch p' s ||
         match s with
         | EmptyString => false
         | String _ s' => star s'
         end) s
  | AnyChar :: p' =>
      match s with
      | EmptyString => false
      | String _ s' => fullmatch p' s'
      end
  | Lit c :: p' =>
      match s with
      | EmptyString => false
      | String a s' => Ascii.eqb a c && fullmatch p' s'
      end
  end.

Definition fnmatch (name pat : string) : bool := fullmatch (translate pat) name.

(** ** The world: file system and console *)

(** The file system is the set of paths that exist, each in the form
    [as_posix] prints it, relative to the working directory. *)
Abbreviation FS := (gset string).

(** What reaches the terminal or the process table, in order. *)
Inductive event :=
  | Print (line : string)          (* a line written by [print] *)
  | Spawn (cmd : list string)      (* a child process started by [subprocess.run] *)
  | Emit (line : string).          (* a line a child wrote to an inherited stream *)

#[global] Instance event_eq_dec : EqDecision event.
Proof. solve_decision. Defined.

Record world := World { files : FS; console : list event }.

Inductive exn :=
  | FileExistsError
  | AttributeError
  | SystemExit (code : Z).

Inductive result (A : Type) :=
  | Ok (a : A)
  | Raise (e : exn).
Arguments Ok {A} a.
Arguments Raise {A} e.

(** Python statements: a state and exception monad over the world. *)
Definition py (A : Type) : Type := world -> result A * world.

Definition ret {A} (a : A) : py A := fun w => (Ok a, w).

Definition bind {A B} (m : py A) (k : A -> py B) : py B :=
  fun w => match m w with
           | (Ok a, w') => k a w'
           | (Raise e, w') => (Raise e, w')
           end.

Definition raise {A} (e : exn) : py A := fun w => (Raise e, w).

(** [try: body except FileExistsError: handler] *)
Definition try_except_FileExistsError {A} (body handler : py A) : py A :=
  fun w => match body w with
           | (Raise FileExistsError, w') => handler w'
           | r => r
           end.

#[global] Instance py_ret : MRet py := @ret.
#[global] Instance py_bind : MBind py := fun A B k m => bind m k.

(** [print(line)] *)
Definition print (line : string) : py unit :=
  fun w => (Ok tt, World (files w) (console w ++ [Print line])).

(** [exit(code)] *)
Definition exit {A} (code : Z) : py A := raise (SystemExit code).

(** [os.mkdir(p)]: the parent of a one-component relative path is the
    working directory, which exists. *)
Definition mkdir (p : Path) : py unit :=
  fun w => if decide (as_posix p ∈ files w)
           then (Raise FileExistsError, w)
           else (Ok tt, World ({[ as_posix p ]} ∪ files w) (console w)).

(** Names [os.scandir] can return: a single component, never [.] or [..]. *)
Definition is_entry_name (n : string) : bool :=
  negb (String.eqb n "") && negb (String.eqb n ".") && negb (String.eqb n "..")
  && negb (contains "/" n).

(** [os.scandir(dir)]: the names [n] of the existing paths [dir / n]. *)
Definition scandir (fs : FS) (dir : Path) : list string :=
  omap (fun s : string =>
          let n := name (PurePath s) in
          if decide (PurePath s = make_child_relpath dir n /\ as_posix (PurePath s) = s
                     /\ is_entry_name n = true)
          then Some n else None)
       (elements fs).

(** [list(dir.glob(pat))] for a one-component wildcard pattern: the
    children of [dir] whose name matches, in directory order. *)
Definition glob (dir : Path) (pat : string) : py (list Path) :=
  fun w => (Ok (map (make_child_relpath dir)
                    (filter (fun n => fnmatch n pat = true) (scandir (files w) dir))), w).

(** ** [subprocess.run] *)

(** What a child process does: it may change the file system, writes lines
    to its standard output and standard error, and exits with a status.
    The executable being on the search path is a precondition of the
    program; a tool is therefore a total function. *)
Record completed := Completed {
  files_after : FS;
  stdout_lines : list string;
  stderr_lines : list string;
  returncode : Z }.

Definition tool := list string -> FS -> completed.

(** Where a standard stream of the child goes. *)
Inductive redirect := INHERIT | DEVNULL.

Definition stream (r : redirect) (lines : list string) : list event :=
  match r with
  | INHERIT => map Emit lines
  | DEVNULL => []
  end.

(** [subprocess.run(command, stdout=..., stderr=...)]: waits for the child
    and returns its [returncode] (the [CompletedProcess]); a non-zero status
    raises nothing, as [check] is not set. *)
Definition subprocess_run (t : tool) (command : list string)
    (stdout stderr : redirect) : py Z :=
  fun w =>
    let c := t command (files w) in
    (Ok (returncode c),
     World (files_after c)
           (console w ++ [Spawn command]
              ++ stream stdout (stdout_lines c) ++ stream stderr (stderr_lines c))).

(** ** [multiprocessing.Pool.starmap] *)

(** The jobs run in worker processes in an order the pool picks: a
    scheduler is a function that permutes the job list, so every job
    submitted runs once. A job is taken as atomic (its child process and
    its notice are not interleaved with other jobs). *)
Record scheduler (J : Type) := Scheduler {
  order : list J -> list J;
  order_perm : forall jobs, order jobs ≡ₚ jobs }.
Arguments order {J} s jobs.
Arguments order_perm {J} s jobs.

Fixpoint for_each {J A} (f : J -> py A) (jobs : list J) : py unit :=
  match jobs with
  | [] => ret tt
  | j :: jobs' => f j ;; for_each f jobs'
  end.

Definition starmap {J A} (sched : scheduler J) (f : J -> py A) (jobs : list J) : py unit :=
  for_each f (order sched jobs).

(** ** [argparse] *)

(** The command line after lexing: which subcommand was named and which
    options were given. *)
Inductive cli :=
  | cli_none
  | cli_folder (m q : option Z)
  | cli_image (image : list string) (m q : option Z).

(** The [Namespace] that [parse_args] returns. [command] is always
    there and is [None] when no subcommand was named; each of the other
    attributes is [None] here when the namespace does not have it. *)
Record Namespace := mkNamespace {
  ns_command : option string;
  ns_image : option (list Path);
  ns_max_length : option Z;
  ns_quality : option Z }.

(** Reading an attribute that the namespace lacks raises [AttributeError]. *)
Definition getattr {A} (a : option A) : py A :=
  match a with
  | Some v => ret v
  | None => raise AttributeError
  end.

(** The exit status of the interpreter once [main()] is over: [0] on a
    normal return, the code of an uncaught [SystemExit], and [1] when
    another exception reaches the top level. *)
Definition python (main : py unit) (w : world) : Z * world :=
  match main w with
  | (Ok _, w') => (0, w')
  | (Raise (SystemExit code), w') => (code, w')
  | (Raise _, w') => (1, w')
  end.

(** The command lines of the child processes on a console, in order. *)
Definition spawned (tr : list event) : list (list string) :=
  omap (fun e => match e with Spawn cmd => Some cmd | _ => None end) tr.

End Py.

Import Py.

(* ===================================================================== *)
(** * [folderResizer.py] *)
(* ===================================================================== *)

Module folderResizer.
Section program.

(** What the host does with a command line, and the order in which the
    pool runs its jobs. *)
Variable exec : tool.
Variable pool : scheduler (Path * Z * Z).

(** [output_name] of [process_image] *)
Definition output_name (image_path : Path) : Path :=
  PurePath ("./resized/" ++ stem image_path ++ "_resized" ++ suffix image_path).

(** [command] of [process_image] *)
Definition command (image_path : Path) (max_length quality : Z) : list string :=
  [ "ffmpeg";
    "-i"; as_posix image_path;
    "-vf"; "scale='if(gt(iw,ih)," ++ str_of_int max_length ++ ",-1)':'if(gt(iw,ih),-1,"
             ++ str_of_int max_length ++ ")'";
    "-q:v"; str_of_int quality;
    as_posix (output_name image_path) ].

Definition process_image (image_path : Path) (max_length quality : Z) : py unit :=
  subprocess_run exec (command image_path max_length quality) DEVNULL DEVNULL ;;
  print ("Finished processing " ++ name image_path).

(** The two subparsers: [-m/--max-length] with default 1999,
    [-q/--quality] with default 1, and for [image] one or more paths
    ([nargs="+"], [type=Path]); a missing path is a usage error, which
    exits with status 2. *)
Definition parse_args (argv : cli) : py Namespace :=
  match argv with
  | cli_none => mret (mkNamespace None None None None)
  | cli_folder m q =>
      mret (mkNamespace (Some "folder") None
              (Some (default 1999 m)) (Some (default 1 q)))
  | cli_image [] _ _ => exit 2
  | cli_image image m q =>
      mret (mkNamespace (Some "image") (Some (map PurePath image))
              (Some (default 1999 m)) (Some (default 1 q)))
  end.

(** [for extension in ...: images_to_process.extend(root_folder.glob(f"*.{extension}"))] *)
Fixpoint extend_globs (root_folder : Path) (extensions : list string)
    (images_to_process : list Path) : py (list Path) :=
  match extensions with
  | [] => mret images_to_process
  | extension :: rest =>
      found ← glob root_folder ("*." ++ extension);
      extend_globs root_folder rest (images_to_process ++ found)
  end.

(** Lines 43-52 of [main]: the input files of the run. *)
Definition resolve_images (args : Namespace) : py (list Path) :=
  if decide (ns_command args = Some "folder") then
    let root_folder := PurePath "." in
    images_to_process ← extend_globs root_folder ["jpg"; "jpeg"] [];
    entries ← glob root_folder "*";
    print ("Ignoring "
           ++ str_of_int (Z.of_nat (length entries) - Z.of_nat (length images_to_process))
           ++ " files") ;;
    mret images_to_process
  else getattr (ns_image args).

(** [zip(images, repeat(max_val), repeat(quality_val))] *)
Definition jobs (images : list Path) (max_val quality_val : Z) : list (Path * Z * Z) :=
  map (fun image => (image, max_val, quality_val)) images.

(** Lines 68-69 of [main]: [with Pool() as pool: pool.starmap(...)]. *)
Definition dispatch (images_to_process : list Path) (max_val quality_val : Z) : py unit :=
  starmap pool (fun '(image_path, max_length, quality) =>
                  process_image image_path max_length quality)
          (jobs images_to_process max_val quality_val).

Definition main (argv : cli) : py unit :=
  args ← parse_args argv;
  images_to_process ← resolve_images args;
  print ("Found " ++ str_of_int (Z.of_nat (length images_to_process)) ++ " images") ;;
  max_val ← getattr (ns_max_length args);
  quality_val ← getattr (ns_quality args);
  print ("Resizing images to max length " ++ str_of_int max_val
         ++ " with quality " ++ str_of_int quality_val) ;;
  try_except_FileExistsError
    (mkdir (PurePath "./resized"))
    (print "Please remove or rename existing 'resized' folder to ensure no file loss" ;;
     exit 1) ;;
  dispatch images_to_process max_val quality_val ;;
  print ("Finished processing " ++ str_of_int (Z.of_nat (length images_to_process))
         ++ " files.").

End program.
End folderResizer.

(* ===================================================================== *)
(** * [imageResizer.py] *)
(* ===================================================================== *)

Module imageResizer.
Section program.

Variable exec : tool.
Variable pool : scheduler (Path * Z * Z).

(** [output_name] of [_process_image] *)
Definition output_name (image_path : Path) : Path :=
  PurePath ("./resized/" ++ stem image_path ++ "_resized" ++ suffix image_path).

(** [command] of [_process_image] *)
Definition command (image_path : Path) (max_length quality : Z) : list string :=
  [ "ffmpeg";
    "-i"; as_posix image_path;
    "-vf"; "scale='if(gt(iw,ih)," ++ str_of_int max_length ++ ",-1)':'if(gt(iw,ih),-1,"
             ++ str_of_int max_length ++ ")'";
    "-q:v"; str_of_int quality;
    as_posix (output_name image_path) ].

Definition _process_image (image_path : Path) (max_length quality : Z)
    (verbose : bool) : py unit :=
  subprocess_run exec (command image_path max_length quality) DEVNULL DEVNULL ;;
  if verbose then print ("Finished processing " ++ name image_path) else mret tt.

(** The default of the keyword argument [verbose]. *)
Definition verbose_default : bool := true.

(** [zip(images, repeat(max_length), repeat(quality))] *)
Definition jobs (images : list Path) (max_length quality : Z) : list (Path * Z * Z) :=
  map (fun image => (image, max_length, quality)) images.

(** [process_images]: the pool calls [_process_image] with three
    positional arguments, so [verbose] takes its default;
    [output_folder] is a parameter of the function. *)
Definition process_images (images : list Path) (output_folder : Path)
    (max_length quality : Z) : py unit :=
  starmap pool (fun '(image_path, max_length, quality) =>
                  _process_image image_path max_length quality verbose_default)
          (jobs images max_length quality).

Definition parse_args (argv : cli) : py Namespace :=
  match argv with
  | cli_none => mret (mkNamespace None None None None)
  | cli_folder m q =>
      mret (mkNamespace (Some "folder") None
              (Some (default 1999 m)) (Some (default 1 q)))
  | cli_image [] _ _ => exit 2
  | cli_image image m q =>
      mret (mkNamespace (Some "image") (Some (map PurePath image))
              (Some (default 1999 m)) (Some (default 1 q)))
  end.

Fixpoint extend_globs (root_folder : Path) (extensions : list string)
    (images_to_process : list Path) : py (list Path) :=
  match extensions with
  | [] => mret images_to_process
  | extension :: rest =>
      found ← glob root_folder ("*." ++ extension);
      extend_globs root_folder rest (images_to_process ++ found)
  end.

Definition resolve_images (args : Namespace) : py (list Path) :=
  if decide (ns_command args = Some "folder") then
    let root_folder := PurePath "." in
    images_to_process ← extend_globs root_folder ["jpg"; "jpeg"] [];
    entries ← glob root_folder "*";
    print ("Ignoring "
           ++ str_of_int (Z.of_nat (length entries) - Z.of_nat (length images_to_process))
           ++ " files") ;;
    mret images_to_process
  else getattr (ns_image args).

Definition main (argv : cli) : py unit :=
  args ← parse_args argv;
  images_to_process ← resolve_images args;
  print ("Found " ++ str_of_int (Z.of_nat (length images_to_process)) ++ " images") ;;
  max_val ← getattr (ns_max_length args);
  quality_val ← getattr (ns_quality args);
  print ("Resizing images to max length (any side) " ++ str_of_int max_val
         ++ " with quality " ++ str_of_int quality_val) ;;
  let output_folder := PurePath "./resized" in
  try_except_FileExistsError
    (mkdir output_folder)
    (print "Please remove or rename existing 'resized' folder to ensure no file loss" ;;
     exit 1) ;;
  process_images images_to_process output_folder max_val quality_val ;;
  print ("Finished processing " ++ str_of_int (Z.of_nat (length images_to_process))
         ++ " files.").

End program.
End imageResizer.

(* ===================================================================== *)
(** * The external collaborator: the [scale] filter of [ffmpeg] *)
(* ===================================================================== *)

(** The program only prints the filter argument; what it means is fixed by
    the tool. This module gives the meaning [ffmpeg] documents for it:
    the expression language of [libavutil/eval] restricted to integer
    literals, [iw], [ih], [gt(x,y)] and [if(x,y,z)], and the resolution of
    the requested size in [libavfilter/scale_eval], over unbounded
    integers. *)
Module FFmpeg.

Inductive expr :=
  | Num (n : Z)
  | In_w
  | In_h
  | Gt (x y : expr)
  | If (x y z : expr).

(** [gt(x,y)] is 1 when [x > y] and 0 otherwise; [if(x,y,z)] is [y] when
    [x] is non-zero and [z] otherwise. *)
Fixpoint eval (iw ih : Z) (e : expr) : Z :=
  match e with
  | Num n => n
  | In_w => iw
  | In_h => ih
  | Gt x y => if eval iw ih y <? eval iw ih x then 1 else 0
  | If x y z => if eval iw ih x =? 0 then eval iw ih z else eval iw ih y
  end.

Definition is_digit (c : ascii) : bool :=
  let n := nat_of_ascii c in (48 <=? n)%nat && (n <=? 57)%nat.

(** The longest run of decimal digits at the head of [s], and the rest. *)
Fixpoint span_digits (s : string) : string * string :=
  match s with
  | EmptyString => (EmptyString, EmptyString)
  | String c s' =>
      if is_digit c
      then let '(d, r) := span_digits s' in (String c d, r)
      else (EmptyString, s)
  end.

(** What may follow an integer literal: anything but a digit. *)
Definition ends_literal (rest : string) : Prop :=
  match rest with
  | EmptyString => True
  | String c _ => is_digit c = false
  end.

(** An integer literal: an optional [-] and at least one digit. *)
Definition number (s : string) : option (Z * string) :=
  let '(sign, body) :=
    match s with
    | String c s' => if Ascii.eqb c "-" then ("-", s') else ("", s)
    | EmptyString => ("", s)
    end in
  let '(d, r) := span_digits body in
  n ← NilZero.int_of_string (sign ++ d); Some (Z.of_int n, r).

Fixpoint strip_prefix (p s : string) : option string :=
  match p, s with
  | EmptyString, _ => Some s
  | String a p', String b s' => if Ascii.eqb a b then strip_prefix p' s' else None
  | String _ _, EmptyString => None
  end.

(** Recursive descent; [fuel] bounds the nesting depth. *)
Fixpoint parse_expr (fuel : nat) (s : string) : option (expr * string) :=
  match fuel with
  | O => None
  | S fuel' =>
      match number s with
      | Some (n, r) => Some (Num n, r)
      | None =>
      match strip_prefix "iw" s with
      | Some r => Some (In_w, r)
      | None =>
      match strip_prefix "ih" s with
      | Some r => Some (In_h, r)
      | None =>
      match strip_prefix "gt(" s with
      | Some r0 =>
          '(x, r1) ← parse_expr fuel' r0;
          r2 ← strip_prefix "," r1;
          '(y, r3) ← parse_expr fuel' r2;
          r4 ← strip_prefix ")" r3;
          Some (Gt x y, r4)
      | None =>
          r0 ← strip_prefix "if(" s;
          '(x, r1) ← parse_expr fuel' r0;
          r2 ← strip_prefix "," r1;
          '(y, r3) ← parse_expr fuel' r2;
          r4 ← strip_prefix "," r3;
          '(z, r5) ← parse_expr fuel' r4;
          r6 ← strip_prefix ")" r5;
          Some (If x y z, r6)
      end end end end
  end.

(** The filter description [scale='W':'H']: the two quoted options are
    the width and the height expression. *)
Definition parse_scale (arg : string) : option (expr * expr) :=
  r0 ← strip_prefix "scale='" arg;
  '(w, r1) ← parse_expr (String.length arg) r0;
  r2 ← strip_prefix "':'" r1;
  '(h, r3) ← parse_expr (String.length arg) r2;
  r4 ← strip_prefix "'" r3;
  if String.eqb r4 "" then Some (w, h) else None.

(** [av_rescale(a, b, c)]: [a * b / c] rounded to the nearest integer,
    halves away from zero. *)
Definition av_rescale (a b c : Z) : Z :=
  if a <? 0 then - ((- a * b + c ÷ 2) ÷ c) else (a * b + c ÷ 2) ÷ c.

(** [ff_scale_eval_dimensions]: a requested size of 0 is the input size. *)
Definition eval_dimensions (w h : expr) (iw ih : Z) : Z * Z :=
  let ew := eval iw ih w in
  let eh := eval iw ih h in
  (if ew =? 0 then iw else ew, if eh =? 0 then ih else eh).

(** [ff_scale_adjust_dimensions] with the default options: a negative
    size [-n] asks for the size that keeps the aspect ratio, as a multiple
    of [n]; two negative sizes give the input size. *)
Definition adjust_dimensions (w h iw ih : Z) : Z * Z :=
  let factor_w := if w <? -1 then - w else 1 in
  let factor_h := if h <? -1 then - h else 1 in
  let '(w, h) := if (w <? 0) && (h <? 0) then (iw, ih) else (w, h) in
  let w := if w <? 0 then av_rescale h iw (ih * factor_w) * factor_w else w in
  let h := if h <? 0 then av_rescale w ih (iw * factor_h) * factor_h else h in
  (w, h).

(** How the tool reads the command line the program builds: the input
    after [-i], the filter description after [-vf], the encoder quality
    after [-q:v], and the output file last. *)
Record request := Request {
  input : string;
  video_filter : string;
  quality_scale : string;
  output : string }.

Definition read_command (cmd : list string) : option request :=
  match cmd with
  | ["ffmpeg"; "-i"; i; "-vf"; f; "-q:v"; q; o] => Some (Request i f q o)
  | _ => None
  end.

(** The size of the frame the filter [arg] produces from an [iw] x [ih]
    frame; [None] when [arg] is not a [scale] description. *)
Definition scale (arg : string) (iw ih : Z) : option (Z * Z) :=
  '(w, h) ← parse_scale arg;
  let '(ew, eh) := eval_dimensions w h iw ih in
  Some (adjust_dimensions ew eh iw ih).

End FFmpeg.

(* ===================================================================== *)
(** * Vocabulary of the statements *)
(* ===================================================================== *)

Module Props.

(** ASCII lower-casing, to speak of case variants of an extension. *)
Definition lower_char (c : ascii) : ascii :=
  let n := nat_of_ascii c in
  if (65 <=? n)%nat && (n <=? 90)%nat then ascii_of_nat (n + 32) else c.

Fixpoint lower (s : string) : string :=
  match s with
  | EmptyString => EmptyString
  | String c s' => String (lower_char c) (lower s')
  end.

(** An extension that is a case variant of [.jpg] or [.jpeg]. *)
Definition recognized_extension (ext : string) : bool :=
  String.eqb (lower ext) ".jpg" || String.eqb (lower ext) ".jpeg".

(** The entries of the working directory. *)
Definition entries (fs : FS) : list string := scandir fs (PurePath ".").

(** Entry names the two glob patterns of the program select. *)
Definition is_image_name (n : string) : bool :=
  endswith n ".jpg" || endswith n ".jpeg".

Definition matched (fs : FS) : list string := filter (fun n => is_image_name n = true) (entries fs).

(** A path as the [Path] constructor builds it: no component is empty,
    is [.], or contains a separator. *)
Definition valid_component (c : string) : Prop :=
  c <> "" /\ c <> "." /\ contains "/" c = false.

Definition valid_path (p : Path) : Prop := Forall valid_component (parts p).

(** A command line that names a subcommand and gives it what it requires. *)
Definition well_formed (argv : cli) : Prop :=
  match argv with
  | cli_none => False
  | cli_folder _ _ => True
  | cli_image image _ _ => image <> []
  end.

(** The names the directory scan selects, in the order the program
    collects them: the [.jpg] names, then the [.jpeg] names. *)
Definition selected (fs : FS) : list string :=
  filter (fun n => endswith n ".jpg" = true) (entries fs)
  ++ filter (fun n => endswith n ".jpeg" = true) (entries fs).

(** The input files of a run: the children of the working directory the
    scan selects, or the paths listed on the command line. *)
Definition inputs (argv : cli) (fs : FS) : list Path :=
  match argv with
  | cli_none => []
  | cli_folder _ _ => map (make_child_relpath (PurePath ".")) (selected fs)
  | cli_image image _ _ => map PurePath image
  end.

(** The options as given on the command line. *)
Definition given_max_length (argv : cli) : option Z :=
  match argv with
  | cli_none => None
  | cli_folder m _ | cli_image _ m _ => m
  end.

Definition given_quality (argv : cli) : option Z :=
  match argv with
  | cli_none => None
  | cli_folder _ q | cli_image _ _ q => q
  end.

(** What a run prints before it touches the output directory; the two
    programs word the third line differently. *)
Definition scan_report (argv : cli) (fs : FS) : list event :=
  match argv with
  | cli_folder _ _ =>
      [Print ("Ignoring "
              ++ str_of_int (Z.of_nat (length (entries fs))
                             - Z.of_nat (length (inputs argv fs)))
              ++ " files")]
  | _ => []
  end.

Definition preamble (wording : string) (argv : cli) (fs : FS) : list event :=
  (scan_report argv fs
   ++ [Print ("Found " ++ str_of_int (Z.of_nat (length (inputs argv fs))) ++ " images");
       Print (wording ++ str_of_int (default 1999 (given_max_length argv))
              ++ " with quality " ++ str_of_int (default 1 (given_quality argv)))])%list.

Definition refusal : event :=
  Print "Please remove or rename existing 'resized' folder to ensure no file loss".

Definition summary (n : nat) : event :=
  Print ("Finished processing " ++ str_of_int (Z.of_nat n) ++ " files.").

(** The file name under which the program stores the result for [p]. *)
Definition output_filename (p : Path) : string := stem p ++ "_resized" ++ suffix p.

(** The output argument of a command line: its last word. *)
Definition output_arg (cmd : list string) : string := List.last cmd "".




(** What one job leaves on the console when the streams of the child are
    discarded. *)
Definition job_trace (j : Path * Z * Z) : list event :=
  let '(p, m, q) := j in
  [Spawn (folderResizer.command p m q); Print ("Finished processing " ++ name p)].

(** The file system after the children of the jobs have run, in order. *)
Fixpoint files_after_jobs (exec : tool) (js : list (Path * Z * Z)) (fs : FS) : FS :=
  match js with
  | [] => fs
  | (p, m, q) :: js' =>
      files_after_jobs exec js' (files_after (exec (folderResizer.command p m q) fs))
  end.

End Props.

(** ** Hosts and inputs used to instantiate the statements *)

Module Examples.

(** A tool that writes its last argument as a file, is noisy on both
    streams, and fails. *)
Definition noisy_failing_tool : tool :=
  fun cmd fs => Completed ({[ List.last cmd "" ]} ∪ fs) ["frame=1"] ["error"] 1.

(** A tool that writes its last argument and succeeds quietly. *)
Definition quiet_tool : tool :=
  fun cmd fs => Completed ({[ List.last cmd "" ]} ∪ fs) [] [] 0.

(** The pool that runs the jobs in submission order, and one that runs
    them in reverse. *)
Definition fifo : scheduler (Path * Z * Z) :=
  Scheduler _ (fun js => js) (fun js => Permutation_refl js).
Definition lifo : scheduler (Path * Z * Z) :=
  Scheduler _ (fun js => rev js) (fun js => Permutation_sym (Permutation_rev js)).

(** The directory of the example scenario. *)
Definition scenario : world := World {[ "a.jpg"; "b.jpeg"; "notes.txt" ]} [].

(** The same directory after a first run. *)
Definition second_run : world :=
  World {[ "a.jpg"; "b.jpeg"; "notes.txt"; "resized"; "resized/a_resized.jpg" ]} [].

(** A directory with an upper-case extension. *)
Definition upper_case : world := World {[ "A.JPG" ]} [].

(** A directory without images. *)
Definition no_images : world := World {[ "notes.txt" ]} [].

(** A tool that does nothing and fails. *)
Definition failing_tool : tool := fun cmd fs => Completed fs [] ["not an image"] 1.

End Examples.

(** ** Vocabulary of the further properties *)

Module Runs.


(** A tool that never removes the output directory. *)
Definition keeps_output_directory (exec : tool) : Prop :=
  forall cmd fs, "resized" ∈ fs -> "resized" ∈ files_after (exec cmd fs).

(** A tool that leaves the file system as it finds it, as one that
    fails on every input does. *)
Definition changes_nothing (exec : tool) : Prop :=
  forall cmd fs, files_after (exec cmd fs) = fs.

(** A namespace of the [folder] subcommand. *)
Definition folder_namespace (args : Namespace) : Prop :=
  ns_command args = Some "folder".


End Runs.

Import Props.
Import Runs.

(* ===================================================================== *)
(** * Facts about the runtime fragment *)
(* ===================================================================== *)

#[local] Arguments String.append !_ _ / : simpl nomatch.

Section str_facts.

Implicit Types (s t : string) (c : ascii).

Lemma len_nonneg s : 0 <= len s.
Proof. unfold len. lia. Qed.

Lemma len_String c s : len (String c s) = len s + 1.
Proof. unfold len. cbn [String.length]. lia. Qed.

Lemma len_app s t : len (s +:+ t) = len s + len t.
Proof.
  induction s as [|a s IH]; cbn [String.append].
  - unfold len. cbn. lia.
  - rewrite !len_String, IH. lia.
Qed.

Lemma app_empty_r s : s +:+ "" = s.
Proof. induction s as [|a s IH]; cbn [String.append]; congruence. Qed.

Lemma app_assoc_str s t u : (s +:+ t) +:+ u = s +:+ t +:+ u.
Proof. induction s as [|a s IH]; cbn [String.append]; congruence. Qed.

Lemma rfind_bounds c s : -1 <= rfind c s < len s.
Proof.
  induction s as [|a s IH]; cbn [rfind].
  - unfold len; cbn; lia.
  - rewrite len_String.
    destruct (0 <=? rfind c s) eqn:E; [lia|].
    destruct (Ascii.eqb a c); lia.
Qed.

Lemma rfind_app c s t :
  rfind c (s +:+ t) = if 0 <=? rfind c t then len s + rfind c t else rfind c s.
Proof.
  induction s as [|a s IH]; cbn [String.append rfind].
  - pose proof (rfind_bounds c t).
    destruct (0 <=? rfind c t) eqn:E; [unfold len; cbn; lia|].
    apply Z.leb_gt in E. lia.
  - rewrite IH, len_String.
    destruct (0 <=? rfind c t) eqn:E; [|reflexivity].
    apply Z.leb_le in E. pose proof (len_nonneg s).
    destruct (0 <=? len s + rfind c t) eqn:E'; [lia|].
    apply Z.leb_gt in E'. lia.
Qed.

Lemma rfind_absent c s : contains c s = false <-> rfind c s = -1.
Proof.
  induction s as [|a s IH]; cbn [contains rfind]; [done|].
  pose proof (rfind_bounds c s).
  destruct (Ascii.eqb a c); cbn [orb].
  - split; [done|]. destruct (0 <=? rfind c s) eqn:E; [apply Z.leb_le in E|]; lia.
  - rewrite IH. destruct (0 <=? rfind c s) eqn:E; [apply Z.leb_le in E|apply Z.leb_gt in E]; lia.
Qed.

Lemma contains_app c s t : contains c (s +:+ t) = contains c s || contains c t.
Proof.
  induction s as [|a s IH]; cbn [String.append contains]; [done|].
  rewrite IH. by rewrite orb_assoc.
Qed.

Lemma take_drop n s : take n s +:+ drop n s = s.
Proof.
  revert s. induction n as [|n IH]; intros [|a s]; cbn [take drop String.append]; try done.
  by rewrite IH.
Qed.

Lemma contains_take c n s : contains c s = false -> contains c (take n s) = false.
Proof.
  intros H. rewrite <- (take_drop n s), contains_app in H.
  by apply orb_false_elim in H as [? _].
Qed.

Lemma contains_drop c n s : contains c s = false -> contains c (drop n s) = false.
Proof.
  intros H. rewrite <- (take_drop n s), contains_app in H.
  by apply orb_false_elim in H as [_ ?].
Qed.

Lemma len_take n s : (n <= String.length s)%nat -> len (take n s) = Z.of_nat n.
Proof.
  revert s. induction n as [|n IH]; intros [|a s]; cbn [take String.length]; intros Hn;
    try (unfold len; cbn; lia).
  rewrite len_String, IH; lia.
Qed.

(** The character at the last [.] is a [.], and no [.] follows it. *)
Lemma rfind_split c s :
  0 <= rfind c s ->
  exists t, drop (Z.to_nat (rfind c s)) s = String c t /\ contains c t = false.
Proof.
  induction s as [|a s IH]; cbn [rfind]; [lia|].
  destruct (0 <=? rfind c s) eqn:E.
  - apply Z.leb_le in E. intros _.
    replace (Z.to_nat (rfind c s + 1)) with (S (Z.to_nat (rfind c s))) by lia.
    cbn [drop]. auto.
  - apply Z.leb_gt in E. destruct (Ascii.eqb_spec a c) as [->|]; [|lia].
    intros _. cbn [Z.to_nat drop]. exists s. split; [done|].
    apply rfind_absent. pose proof (rfind_bounds c s). lia.
Qed.

End str_facts.

Section path_facts.

Implicit Types (s t : string) (c : ascii) (p : Path).

Lemma split_no_sep c s : contains c s = false -> split c s = [s].
Proof.
  induction s as [|a s IH]; cbn [contains split]; [done|].
  intros [Ha Hs]%orb_false_elim. rewrite Ha, (IH Hs). done.
Qed.

Lemma split_sep c s t :
  contains c s = false -> split c (s +:+ String c t) = s :: split c t.
Proof.
  induction s as [|a s IH]; cbn [contains split String.append].
  - intros _. by rewrite Ascii.eqb_refl.
  - intros [Ha Hs]%orb_false_elim. rewrite Ha, (IH Hs). done.
Qed.

Lemma split_components c s : Forall (fun x => contains c x = false) (split c s).
Proof.
  induction s as [|a s IH]; cbn [split]; [by repeat constructor|].
  destruct (Ascii.eqb a c) eqn:E; [by constructor|].
  destruct (split c s) as [|w ws].
  { constructor; [|constructor]. cbn [contains]. by rewrite E. }
  apply Forall_cons in IH as [Hw Hws]. constructor; [|done].
  cbn [contains]. by rewrite E, Hw.
Qed.

(** The constructor only builds valid paths. *)
Lemma PurePath_valid s : valid_path (PurePath s).
Proof.
  unfold valid_path, PurePath. destruct (splitroot s) as [r rel]. cbn [parts].
  apply Forall_forall. intros x [[Hx1 Hx2] Hx]%list_elem_of_filter.
  repeat split; [done..|].
  by eapply (proj1 (Forall_forall _ _) (split_components "/" rel)).
Qed.

Lemma make_child_relpath_valid p n :
  valid_path p -> valid_component n -> valid_path (make_child_relpath p n).
Proof.
  unfold valid_path, make_child_relpath. cbn [parts]. intros Hp Hn.
  apply Forall_app. split; [done|]. constructor; [done|constructor].
Qed.

(** A valid component is parsed as itself. *)
Lemma PurePath_component n : valid_component n -> PurePath n = mkPath "" [n].
Proof.
  intros (Hne & Hdot & Hsl). unfold PurePath.
  assert (splitroot n = ("", n)) as ->.
  { destruct n as [|a n]; [done|]. cbn [contains] in Hsl.
    apply orb_false_elim in Hsl as [Ha _]. unfold splitroot.
    destruct (Ascii.eqb_spec a "/") as [->|Hne']; [done|].
    destruct a as [[] [] [] [] [] [] [] []]; try done. }
  rewrite (split_no_sep _ _ Hsl). cbn [filter list_filter].
  rewrite decide_True by done. done.
Qed.

Lemma name_no_sep p : valid_path p -> contains "/" (name p) = false.
Proof.
  unfold valid_path, name. intros Hp.
  induction Hp as [|x l Hx Hl IH]; [done|].
  destruct l as [|y l]; [by destruct Hx as (_ & _ & ?)|]. exact IH.
Qed.

Lemma stem_no_sep p : valid_path p -> contains "/" (stem p) = false.
Proof.
  intros Hp%name_no_sep. unfold stem, slice_to.
  destruct (_ && _); [by apply contains_take|done].
Qed.

Lemma suffix_no_sep p : valid_path p -> contains "/" (suffix p) = false.
Proof.
  intros Hp%name_no_sep. unfold suffix, slice_from.
  destruct (_ && _); [by apply contains_drop|done].
Qed.

(** A name is its stem followed by its suffix. *)
Lemma stem_suffix p : stem p +:+ suffix p = name p.
Proof.
  unfold stem, suffix, slice_to, slice_from.
  destruct (_ && _); [apply take_drop|apply app_empty_r].
Qed.

Lemma output_filename_valid p : valid_path p -> valid_component (output_filename p).
Proof.
  intros Hp. unfold output_filename. repeat split.
  - intros H%(f_equal len). rewrite !len_app in H.
    pose proof (len_nonneg (stem p)). pose proof (len_nonneg (suffix p)).
    change (len "_resized") with 8 in H. change (len "") with 0 in H. lia.
  - intros H%(f_equal len). rewrite !len_app in H.
    pose proof (len_nonneg (stem p)). pose proof (len_nonneg (suffix p)).
    change (len "_resized") with 8 in H. change (len ".") with 1 in H. lia.
  - rewrite !contains_app, stem_no_sep, suffix_no_sep by done. done.
Qed.

(** A file name below [./resized] is parsed as two components. *)
Lemma PurePath_resized f :
  valid_component f -> PurePath ("./resized/" +:+ f) = mkPath "" ["resized"; f].
Proof.
  intros (Hne & Hdot & Hsl). unfold PurePath.
  change (splitroot ("./resized/" +:+ f)) with ("", "./resized/" +:+ f).
  cbv beta iota.
  change ("./resized/" +:+ f) with ("." +:+ String "/" ("resized" +:+ String "/" f)).
  rewrite split_sep by done. rewrite split_sep by done.
  rewrite (split_no_sep _ _ Hsl). cbn [filter list_filter].
  rewrite decide_False by (intros [_ ?]; done).
  rewrite decide_True by done. rewrite decide_True by done. done.
Qed.

(** Where the result of a job goes: the file [output_filename p] in the
    directory [resized]. *)
Lemma output_name_parts p :
  valid_path p -> folderResizer.output_name p = mkPath "" ["resized"; output_filename p].
Proof.
  intros Hp. unfold folderResizer.output_name. fold (output_filename p).
  by apply PurePath_resized, output_filename_valid.
Qed.

Lemma output_name_as_posix p :
  valid_path p ->
  as_posix (folderResizer.output_name p) = "resized/" +:+ output_filename p.
Proof. intros Hp. rewrite output_name_parts by done. done. Qed.

End path_facts.

(** The model against values observed with CPython's [PurePosixPath]. *)
Example pathlib_parse :
  map (fun s => (as_posix (PurePath s), name (PurePath s), stem (PurePath s), suffix (PurePath s)))
      ["./a//b/./x.tar.gz"; ""; "//a"; "///a/"; ".jpg"; "a."; "..jpg"; "a/.."]
  = [("a/b/x.tar.gz", "x.tar.gz", "x.tar", ".gz");
     (".", "", "", "");
     ("//a", "a", "a", "");
     ("/a", "a", "a", "");
     (".jpg", ".jpg", ".jpg", "");
     ("a.", "a.", "a.", "");
     ("..jpg", "..jpg", ".", ".jpg");
     ("a/..", "..", "..", "")].
Proof. vm_compute. reflexivity. Qed.

(** Why names that end in a dot are set apart: two distinct names with
    one output file name. *)
Example trailing_dot_collision :
  output_filename (PurePath "a_resized.") = "a_resized._resized"
  /\ output_filename (PurePath "a._resized") = "a_resized._resized".
Proof. split; vm_compute; reflexivity. Qed.

Section glob_facts.

Implicit Types (s t : string) (c : ascii) (p : Path) (fs : FS).

Lemma length_app_str s t :
  String.length (s +:+ t) = (String.length s + String.length t)%nat.
Proof. pose proof (len_app s t) as H. unfold len in H. lia. Qed.

Lemma drop_app_length s t : drop (String.length s) (s +:+ t) = t.
Proof. induction s as [|a s IH]; [by destruct t|exact IH]. Qed.

Lemma drop_drop a b s : drop a (drop b s) = drop (a + b) s.
Proof.
  revert s. induction b as [|b IH]; intros s.
  - by rewrite Nat.add_0_r.
  - rewrite Nat.add_succ_r. destruct s as [|x s]; [by destruct a|]. cbn [drop]. apply IH.
Qed.

Lemma endswith_spec s t : endswith s t = true <-> exists pre, s = pre +:+ t.
Proof.
  unfold endswith. rewrite andb_true_iff, Nat.leb_le, String.eqb_eq. split.
  - intros [_ H]. exists (take (String.length s - String.length t) s).
    rewrite <- H at 2. by rewrite take_drop.
  - intros [pre ->]. rewrite length_app_str. split; [lia|].
    replace (String.length pre + String.length t - String.length t)%nat
      with (String.length pre) by lia.
    apply drop_app_length.
Qed.

(** A pattern of literal characters matches exactly itself. *)
Lemma fullmatch_literal (cs : list ascii) s :
  fullmatch (map Lit cs) s = String.eqb s (string_of_list_ascii cs).
Proof.
  revert s. induction cs as [|c cs IH]; intros s; cbn [map fullmatch string_of_list_ascii].
  - done.
  - destruct s as [|a s]; [done|]. rewrite IH. cbn [String.eqb]. done.
Qed.

(** A leading [*] lets the rest of the pattern match any tail of the name. *)
Lemma fullmatch_star (q : list wild) s :
  fullmatch (Star :: q) s = true <-> exists pre suf, s = pre +:+ suf /\ fullmatch q suf = true.
Proof.
  cbn [fullmatch]. induction s as [|a s IH].
  - rewrite orb_false_r. split.
    + intros H. by exists "", "".
    + intros (pre & suf & Hs & H). destruct pre; [|done]. cbn in Hs. by subst suf.
  - rewrite orb_true_iff, IH. split.
    + intros [H|(pre & suf & -> & H)].
      * by exists "", (String a s).
      * by exists (String a pre), suf.
    + intros (pre & suf & Hs & H). destruct pre as [|b pre].
      * cbn in Hs. subst suf. by left.
      * cbn in Hs. injection Hs as -> ->. right. by exists pre, suf.
Qed.

Lemma fnmatch_star_literal (cs : list ascii) n :
  fullmatch (Star :: map Lit cs) n = endswith n (string_of_list_ascii cs).
Proof.
  apply eq_true_iff_eq. rewrite fullmatch_star, endswith_spec. split.
  - intros (pre & suf & -> & H). rewrite fullmatch_literal in H.
    apply String.eqb_eq in H as ->. by exists pre.
  - intros [pre ->]. exists pre, (string_of_list_ascii cs). split; [done|].
    rewrite fullmatch_literal. apply String.eqb_refl.
Qed.

Lemma fnmatch_jpg n : fnmatch n "*.jpg" = endswith n ".jpg".
Proof. exact (fnmatch_star_literal ["."; "j"; "p"; "g"]%char n). Qed.

Lemma fnmatch_jpeg n : fnmatch n "*.jpeg" = endswith n ".jpeg".
Proof. exact (fnmatch_star_literal ["."; "j"; "p"; "e"; "g"]%char n). Qed.

Lemma fnmatch_all n : fnmatch n "*" = true.
Proof.
  unfold fnmatch. change (translate "*") with [Star].
  apply fullmatch_star. exists n, "". by rewrite app_empty_r.
Qed.

(** No name ends both in [.jpg] and in [.jpeg]. *)
Lemma jpg_jpeg_disjoint n : endswith n ".jpg" = true -> endswith n ".jpeg" = true -> False.
Proof.
  unfold endswith. cbn [String.length].
  intros [H4 E4%String.eqb_eq]%andb_true_iff [H5%Nat.leb_le E5%String.eqb_eq]%andb_true_iff.
  replace (String.length n - 4)%nat with (1 + (String.length n - 5))%nat in E4 by lia.
  rewrite <- drop_drop, E5 in E4. done.
Qed.

Lemma as_posix_component n : n <> "" -> as_posix (mkPath "" [n]) = n.
Proof.
  intros Hn. unfold as_posix. cbn [root parts join String.append].
  destruct (String.eqb_spec n ""); done.
Qed.

Lemma is_entry_name_valid n : is_entry_name n = true -> valid_component n.
Proof.
  unfold is_entry_name.
  intros [[[H1 H2]%andb_true_iff _]%andb_true_iff H4]%andb_true_iff.
  apply negb_true_iff in H1, H2, H4.
  apply String.eqb_neq in H1, H2. done.
Qed.

(** Scanning the working directory lists the existing one-component names. *)
Lemma scandir_cwd fs :
  scandir fs (PurePath ".") = filter (fun n => is_entry_name n = true) (elements fs).
Proof.
  unfold scandir. induction (elements fs) as [|s l IH]; [done|].
  cbn [omap list_omap]. rewrite IH, filter_cons. clear IH.
  destruct (decide (is_entry_name s = true)) as [Hs|Hs].
  - pose proof (is_entry_name_valid s Hs) as Hv.
    rewrite (PurePath_component s Hv). change (name (mkPath "" [s])) with s.
    rewrite decide_True; [done|].
    split; [done|]. split; [|done]. apply as_posix_component, Hv.
  - rewrite decide_False; [done|].
    intros (Hp & Has & Hn). apply Hs.
    rewrite Hp in Has. change (make_child_relpath (PurePath ".") ?n) with (mkPath "" [n]) in Has.
    rewrite as_posix_component in Has by apply (is_entry_name_valid _ Hn).
    by rewrite <- Has.
Qed.

Lemma entries_NoDup fs : NoDup (entries fs).
Proof. unfold entries. rewrite scandir_cwd. apply NoDup_filter, NoDup_elements. Qed.

Lemma elem_of_entries fs n : n ∈ entries fs <-> n ∈ fs /\ is_entry_name n = true.
Proof.
  unfold entries. rewrite scandir_cwd, list_elem_of_filter, elem_of_elements. tauto.
Qed.

Lemma filter_disjoint_app {A} (P Q : A -> Prop) `{!forall x, Decision (P x)}
    `{!forall x, Decision (Q x)} (l : list A) :
  (forall x, P x -> Q x -> False) ->
  filter P l ++ filter Q l ≡ₚ filter (fun x => P x \/ Q x) l.
Proof.
  intros Hd. induction l as [|x l IH]; [done|].
  rewrite !filter_cons.
  destruct (decide (P x)) as [HP|HP], (decide (Q x)) as [HQ|HQ].
  - destruct (Hd x HP HQ).
  - rewrite decide_True by tauto. cbn. by rewrite IH.
  - rewrite decide_True by tauto. rewrite <- Permutation_middle. by rewrite IH.
  - rewrite decide_False by tauto. done.
Qed.

End glob_facts.

Section run_facts.

Variable exec : tool.
Variable pool : scheduler (Path * Z * Z).

Implicit Types (w : world) (p : Path) (m q : Z).

Lemma bind_ok {A B} (c : py A) (k : A -> py B) w a w' :
  c w = (Ok a, w') -> (c ≫= k) w = k a w'.
Proof. intros H. unfold mbind, py_bind, bind. by rewrite H. Qed.

Lemma bind_raise {A B} (c : py A) (k : A -> py B) w e w' :
  c w = (Raise e, w') -> (c ≫= k) w = (Raise e, w').
Proof. intros H. unfold mbind, py_bind, bind. by rewrite H. Qed.

Lemma process_image_run p m q w :
  folderResizer.process_image exec p m q w =
  (Ok tt, World (files_after (exec (folderResizer.command p m q) (files w)))
                (console w ++ job_trace (p, m, q))).
Proof.
  unfold folderResizer.process_image, job_trace.
  erewrite bind_ok by reflexivity. unfold print. cbn [files console stream].
  by rewrite !app_nil_r, <- app_assoc.
Qed.

Lemma _process_image_run p m q w :
  imageResizer._process_image exec p m q imageResizer.verbose_default w =
  folderResizer.process_image exec p m q w.
Proof. reflexivity. Qed.

Lemma for_each_run (js : list (Path * Z * Z)) w :
  for_each (fun '(p, m, q) => folderResizer.process_image exec p m q) js w =
  (Ok tt, World (files_after_jobs exec js (files w))
                (console w ++ flat_map job_trace js)).
Proof.
  revert w. induction js as [|[[p m] q] js IH]; intros w.
  - cbn [for_each files_after_jobs flat_map]. rewrite app_nil_r. by destruct w.
  - cbn [for_each]. erewrite bind_ok by apply process_image_run.
    rewrite IH. cbn [files console files_after_jobs flat_map].
    by rewrite <- app_assoc.
Qed.

Lemma dispatch_run (images : list Path) m q w :
  folderResizer.dispatch exec pool images m q w =
  (Ok tt, World (files_after_jobs exec (order pool (folderResizer.jobs images m q)) (files w))
                (console w ++ flat_map job_trace (order pool (folderResizer.jobs images m q)))).
Proof. unfold folderResizer.dispatch, starmap. apply for_each_run. Qed.

Lemma process_images_run (images : list Path) (output_folder : Path) m q w :
  imageResizer.process_images exec pool images output_folder m q w =
  folderResizer.dispatch exec pool images m q w.
Proof. reflexivity. Qed.

End run_facts.

Section main_facts.

Variable exec : tool.
Variable pool : scheduler (Path * Z * Z).

Implicit Types (w : world) (argv : cli).

Lemma glob_jpg_jpeg w :
  (map (make_child_relpath (PurePath "."))
       (filter (fun n => fnmatch n "*.jpg" = true) (scandir (files w) (PurePath ".")))
   ++ map (make_child_relpath (PurePath "."))
       (filter (fun n => fnmatch n "*.jpeg" = true) (scandir (files w) (PurePath "."))))%list
  = inputs (cli_folder None None) (files w).
Proof.
  unfold inputs, selected, entries. rewrite map_app. f_equal; f_equal.
  - apply list_filter_iff. intros n. by rewrite fnmatch_jpg.
  - apply list_filter_iff. intros n. by rewrite fnmatch_jpeg.
Qed.

Lemma glob_all w :
  filter (fun n => fnmatch n "*" = true) (scandir (files w) (PurePath ".")) = entries (files w).
Proof.
  unfold entries. induction (scandir _ _) as [|n l IH]; [done|].
  rewrite filter_cons, decide_True by apply fnmatch_all. by rewrite IH.
Qed.

Lemma resolve_images_folder m q w :
  folderResizer.resolve_images
    (mkNamespace (Some "folder") None (Some (default 1999 m)) (Some (default 1 q))) w
  = (Ok (inputs (cli_folder m q) (files w)),
     World (files w) (console w ++ scan_report (cli_folder m q) (files w))).
Proof.
  unfold folderResizer.resolve_images. cbn [ns_command].
  rewrite decide_True by done.
  cbn [folderResizer.extend_globs].
  unfold mbind, py_bind, bind, glob, mret, py_ret, ret, print. cbn [files console].
  rewrite length_map, glob_all. cbn [app]. by rewrite glob_jpg_jpeg.
Qed.

Lemma resolve_images_image image m q w :
  folderResizer.resolve_images
    (mkNamespace (Some "image") (Some (map PurePath image))
       (Some (default 1999 m)) (Some (default 1 q))) w
  = (Ok (inputs (cli_image image m q) (files w)),
     World (files w) (console w ++ scan_report (cli_image image m q) (files w))).
Proof.
  unfold folderResizer.resolve_images. cbn [ns_command].
  rewrite decide_False by done. cbn. rewrite app_nil_r. by destruct w.
Qed.

Lemma mkdir_resized_run w :
  try_except_FileExistsError (mkdir (PurePath "./resized"))
    (print "Please remove or rename existing 'resized' folder to ensure no file loss" ;;
     exit 1) w
  = if decide ("resized" ∈ files w)
    then (Raise (SystemExit 1), World (files w) (console w ++ [refusal]))
    else (Ok tt, World ({[ "resized" ]} ∪ files w) (console w)).
Proof.
  unfold try_except_FileExistsError, mkdir.
  change (as_posix (PurePath "./resized")) with "resized".
  destruct (decide ("resized" ∈ files w)); reflexivity.
Qed.

(** Both programs share the shape of [main]; one script runs either. *)
Ltac run_main resolve_lemma dispatch_lemma :=
  erewrite bind_ok by reflexivity;
  erewrite bind_ok by apply resolve_lemma;
  erewrite bind_ok by reflexivity;
  cbn [ns_max_length ns_quality getattr];
  erewrite bind_ok by reflexivity; erewrite bind_ok by reflexivity;
  erewrite bind_ok by reflexivity;
  unfold mbind at 1, py_bind, bind; rewrite mkdir_resized_run; cbn [files console];
  destruct (decide ("resized" ∈ files _)) as [Hin|Hin];
  [ cbn zeta; unfold preamble; cbn [given_max_length given_quality];
    f_equal; f_equal; by rewrite <- !app_assoc
  | erewrite bind_ok by apply dispatch_lemma;
    cbn zeta; unfold print, preamble, summary;
    cbn [files console given_max_length given_quality];
    f_equal; f_equal; by rewrite <- !app_assoc ].

(** The whole run of [folderResizer.main] on a well-formed command line. *)
Lemma folder_main_run argv w :
  well_formed argv ->
  python (folderResizer.main exec pool argv) w =
  let imgs := inputs argv (files w) in
  let js := order pool (folderResizer.jobs imgs (default 1999 (given_max_length argv))
                          (default 1 (given_quality argv))) in
  let pre := preamble "Resizing images to max length " argv (files w) in
  if decide ("resized" ∈ files w)
  then (1, World (files w) (console w ++ pre ++ [refusal]))
  else (0, World (files_after_jobs exec js ({[ "resized" ]} ∪ files w))
                 (console w ++ pre ++ flat_map job_trace js ++ [summary (length imgs)])).
Proof.
  intros Hwf. unfold python, folderResizer.main.
  destruct argv as [|m q|image m q]; [done| |].
  - cbn [folderResizer.parse_args].
    run_main resolve_images_folder dispatch_run.
  - destruct image as [|i image]; [done|]. cbn [folderResizer.parse_args].
    run_main resolve_images_image dispatch_run.
Qed.

(** The whole run of [imageResizer.main]: the same, with its own wording. *)
Lemma image_main_run argv w :
  well_formed argv ->
  python (imageResizer.main exec pool argv) w =
  let imgs := inputs argv (files w) in
  let js := order pool (folderResizer.jobs imgs (default 1999 (given_max_length argv))
                          (default 1 (given_quality argv))) in
  let pre := preamble "Resizing images to max length (any side) " argv (files w) in
  if decide ("resized" ∈ files w)
  then (1, World (files w) (console w ++ pre ++ [refusal]))
  else (0, World (files_after_jobs exec js ({[ "resized" ]} ∪ files w))
                 (console w ++ pre ++ flat_map job_trace js ++ [summary (length imgs)])).
Proof.
  intros Hwf. unfold python, imageResizer.main.
  destruct argv as [|m q|image m q]; [done| |].
  - cbn [imageResizer.parse_args].
    run_main resolve_images_folder dispatch_run.
  - destruct image as [|i image]; [done|]. cbn [imageResizer.parse_args].
    run_main resolve_images_image dispatch_run.
Qed.

End main_facts.

Section output_name_facts.

Implicit Types (s t n : string) (p : Path).

Lemma length_drop k s : String.length (drop k s) = (String.length s - k)%nat.
Proof.
  revert s. induction k as [|k IH]; intros [|a s]; cbn [drop String.length]; done.
Qed.

Lemma take_app_length s t : take (String.length s) (s +:+ t) = s.
Proof. induction s as [|a s IH]; [by destruct t|]. cbn. by rewrite IH. Qed.

Lemma app_inj_r s1 s2 t : s1 +:+ t = s2 +:+ t -> s1 = s2.
Proof.
  intros H. assert (String.length s1 = String.length s2) as Hl.
  { apply (f_equal String.length) in H. rewrite !length_app_str in H. lia. }
  etrans; [symmetry; apply (take_app_length s1 t)|].
  rewrite H, Hl. apply take_app_length.
Qed.

(** A name whose last [.] is its last character ends in [.]. *)
Lemma rfind_last_endswith n :
  0 <= rfind "." n -> rfind "." n = len n - 1 -> endswith n "." = true.
Proof.
  intros H0 Hl. destruct (rfind_split "." n H0) as (t & Ht & _).
  pose proof (length_drop (Z.to_nat (rfind "." n)) n) as Hd.
  rewrite Ht in Hd. cbn [String.length] in Hd. unfold len in Hl.
  assert (String.length t = 0%nat) as Ht0 by lia.
  destruct t; [|done].
  unfold endswith. cbn [String.length]. apply andb_true_iff. split.
  - apply Nat.leb_le. lia.
  - apply String.eqb_eq. rewrite <- Ht. f_equal. lia.
Qed.

(** The two shapes of an output file name, told apart by where its last
    [.] is: a name without suffix only gets [_resized] appended; a name
    with a suffix gets [_resized] inserted eight characters before it. *)
Lemma output_filename_shape p :
  endswith (name p) "." = false ->
  (output_filename p = name p +:+ "_resized" /\ rfind "." (output_filename p) <= 0)
  \/ (exists t, 0 < rfind "." (name p)
        /\ stem p = take (Z.to_nat (rfind "." (name p))) (name p)
        /\ suffix p = String "." t
        /\ rfind "." (output_filename p) = rfind "." (name p) + 8).
Proof.
  intros Hdot. unfold output_filename.
  pose proof (rfind_bounds "." (name p)) as Hb.
  unfold stem, suffix, slice_to, slice_from.
  destruct (0 <? rfind "." (name p)) eqn:E0; cbn [andb].
  - apply Z.ltb_lt in E0.
    destruct (rfind "." (name p) <? len (name p) - 1) eqn:E1.
    + right. destruct (rfind_split "." (name p)) as (t & Ht & Hc); [lia|].
      exists t. rewrite Ht. repeat split; [done|].
      rewrite !rfind_app. cbn [rfind]. apply rfind_absent in Hc. rewrite Hc.
      change (len "_resized") with 8. cbn.
      change (0 <=? 8 + 0) with true. cbv iota.
      rewrite len_take; [lia|]. unfold len in Hb. lia.
    + apply Z.ltb_ge in E1. rewrite rfind_last_endswith in Hdot; [done|lia|lia].
  - apply Z.ltb_ge in E0. left. split; [done|].
    rewrite rfind_app. cbn. lia.
Qed.

(** Away from names that end in [.], the output file name determines the
    input file name. *)
Lemma output_filename_inj p1 p2 :
  endswith (name p1) "." = false -> endswith (name p2) "." = false ->
  output_filename p1 = output_filename p2 -> name p1 = name p2.
Proof.
  intros H1 H2 Heq.
  destruct (output_filename_shape p1 H1) as [[E1 R1]|(t1 & I1 & S1 & X1 & R1)],
           (output_filename_shape p2 H2) as [[E2 R2]|(t2 & I2 & S2 & X2 & R2)].
  - rewrite E1, E2 in Heq. by apply app_inj_r in Heq.
  - rewrite Heq in R1. lia.
  - rewrite Heq in R1. lia.
  - assert (rfind "." (name p1) = rfind "." (name p2)) as Hi by (rewrite Heq in R1; lia).
    pose proof (rfind_bounds "." (name p1)) as B1.
    pose proof (rfind_bounds "." (name p2)) as B2.
    assert (String.length (stem p1) = String.length (stem p2)) as Hl.
    { pose proof (len_take (Z.to_nat (rfind "." (name p1))) (name p1)) as L1.
      pose proof (len_take (Z.to_nat (rfind "." (name p2))) (name p2)) as L2.
      rewrite <- S1 in L1. rewrite <- S2 in L2. unfold len in *. lia. }
    assert (stem p1 = stem p2) as Hs.
    { rewrite <- (take_app_length (stem p1) ("_resized" +:+ suffix p1)).
      rewrite <- (take_app_length (stem p2) ("_resized" +:+ suffix p2)).
      fold (output_filename p1). fold (output_filename p2). by rewrite Heq, Hl. }
    assert (suffix p1 = suffix p2) as Hx.
    { unfold output_filename in Heq. rewrite Hs in Heq.
      apply String.app_inj in Heq. by apply String.app_inj in Heq. }
    by rewrite <- (stem_suffix p1), <- (stem_suffix p2), Hs, Hx.
Qed.

Lemma NoDup_map_via {A B C} (f : A -> B) (g : A -> C) (l : list A) :
  (forall x y, x ∈ l -> y ∈ l -> g x = g y -> f x = f y) ->
  NoDup (map f l) -> NoDup (map g l).
Proof.
  induction l as [|x l IH]; intros Hinj Hnd; [constructor|].
  cbn [map] in *. apply NoDup_cons in Hnd as [Hx Hnd]. apply NoDup_cons. split.
  - intros (y & Hy & Hin)%list_elem_of_fmap. apply Hx.
    apply list_elem_of_fmap. exists y. split; [|done].
    apply Hinj; [left|by right|done].
  - apply IH; [|done]. intros y z Hy Hz. apply Hinj; by right.
Qed.

Lemma output_arg_command p m q :
  output_arg (folderResizer.command p m q) = as_posix (folderResizer.output_name p).
Proof. reflexivity. Qed.

End output_name_facts.

Section ffmpeg_facts.

Implicit Types (s t rest : string) (c : ascii).

Lemma span_digits_uint (d : Decimal.uint) rest :
  FFmpeg.ends_literal rest ->
  FFmpeg.span_digits (NilEmpty.string_of_uint d +:+ rest) = (NilEmpty.string_of_uint d, rest).
Proof.
  intros Hr. induction d as [|d IH|d IH|d IH|d IH|d IH|d IH|d IH|d IH|d IH|d IH];
    cbn [NilEmpty.string_of_uint String.append FFmpeg.span_digits];
    try (change (FFmpeg.is_digit _) with true; cbv iota; by rewrite IH).
  destruct rest as [|c rest]; [done|]. cbn [FFmpeg.span_digits]. cbn in Hr. by rewrite Hr.
Qed.

Lemma string_of_uint_head (d : Decimal.uint) :
  d <> Decimal.Nil ->
  exists c s, NilEmpty.string_of_uint d = String c s /\ Ascii.eqb c "-" = false.
Proof. destruct d; [done|..]; intros _; eexists _, _; by split. Qed.

Lemma number_unsigned c s :
  Ascii.eqb c "-" = false ->
  FFmpeg.number (String c s) =
  let '(d, r) := FFmpeg.span_digits (String c s) in
  n ← NilZero.int_of_string d; Some (Z.of_int n, r).
Proof. intros Hc. unfold FFmpeg.number. rewrite Hc. by destruct (FFmpeg.span_digits _). Qed.

Lemma string_of_uint_nonnil (d : Decimal.uint) :
  d <> Decimal.Nil -> NilZero.string_of_uint d = NilEmpty.string_of_uint d.
Proof. by destruct d. Qed.

(** A printed integer, followed by something that is not a digit, is read
    back as that integer. *)
Lemma number_str_of_int z rest :
  FFmpeg.ends_literal rest -> FFmpeg.number (str_of_int z +:+ rest) = Some (z, rest).
Proof.
  intros Hr. unfold str_of_int.
  pose proof (DecimalZ.of_to z) as Hz.
  destruct z as [|p|p]; cbn [Z.to_int] in *.
  - unfold FFmpeg.number. cbn.
    destruct rest as [|c rest]; [done|]. cbn in Hr. cbn. by rewrite Hr.
  - pose proof (DecimalPos.Unsigned.to_uint_nonnil p) as Hd.
    pose proof (NilZero.isi (Decimal.Pos (Pos.to_uint p))) as Hisi.
    revert Hz Hd Hisi. generalize (Pos.to_uint p). intros d Hz Hd Hisi.
    cbn [NilZero.string_of_int] in *. rewrite string_of_uint_nonnil in * by done.
    destruct (string_of_uint_head d Hd) as (c & s & Hs & Hc).
    assert (FFmpeg.number (NilEmpty.string_of_uint d +:+ rest)
            = let '(d', r) := FFmpeg.span_digits (NilEmpty.string_of_uint d +:+ rest) in
              n ← NilZero.int_of_string d'; Some (Z.of_int n, r)) as ->.
    { rewrite Hs. by apply number_unsigned. }
    rewrite span_digits_uint by done.
    rewrite Hisi by (intros [=]; done). cbn [mbind option_bind]. by rewrite Hz.
  - pose proof (DecimalPos.Unsigned.to_uint_nonnil p) as Hd.
    pose proof (NilZero.isi (Decimal.Neg (Pos.to_uint p))) as Hisi.
    revert Hz Hd Hisi. generalize (Pos.to_uint p). intros d Hz Hd Hisi.
    cbn [NilZero.string_of_int] in *. rewrite string_of_uint_nonnil in * by done.
    unfold FFmpeg.number. cbn [String.append]. rewrite Ascii.eqb_refl.
    rewrite span_digits_uint by done.
    change ("-" +:+ NilEmpty.string_of_uint d) with (String "-" (NilEmpty.string_of_uint d)).
    rewrite Hisi by (intros [=]; done). cbn [mbind option_bind]. by rewrite Hz.
Qed.

Lemma number_no_literal c s :
  FFmpeg.is_digit c = false -> Ascii.eqb c "-" = false -> FFmpeg.number (String c s) = None.
Proof.
  intros Hd Hc. rewrite number_unsigned by done. cbn [FFmpeg.span_digits]. by rewrite Hd.
Qed.

(** Run the recursive descent up to the next literal, then read it. *)
Ltac descend :=
  cbn [FFmpeg.parse_expr String.append FFmpeg.strip_prefix Ascii.eqb Bool.eqb
       mbind option_bind];
  first [ rewrite number_no_literal by done
        | rewrite number_str_of_int by done ].

Lemma parse_expr_if_gt k a b rest :
  FFmpeg.parse_expr (S (S (S k)))
    ("if(gt(iw,ih)," +:+ str_of_int a +:+ "," +:+ str_of_int b +:+ ")" +:+ rest)
  = Some (FFmpeg.If (FFmpeg.Gt FFmpeg.In_w FFmpeg.In_h) (FFmpeg.Num a) (FFmpeg.Num b), rest).
Proof. repeat descend. reflexivity. Qed.

(** The filter argument of the program is the [scale] description with
    these two expressions. *)
Lemma parse_scale_command p m q :
  exists r, FFmpeg.read_command (folderResizer.command p m q) = Some r /\
    FFmpeg.parse_scale (FFmpeg.video_filter r)
    = Some (FFmpeg.If (FFmpeg.Gt FFmpeg.In_w FFmpeg.In_h) (FFmpeg.Num m) (FFmpeg.Num (-1)),
            FFmpeg.If (FFmpeg.Gt FFmpeg.In_w FFmpeg.In_h) (FFmpeg.Num (-1)) (FFmpeg.Num m)).
Proof.
  eexists. split; [reflexivity|]. cbn [FFmpeg.video_filter].
  unfold FFmpeg.parse_scale.
  set (arg := (_ +:+ _)%string).
  assert (exists k, String.length arg = S (S (S k))) as [k ->] by (eexists; reflexivity).
  subst arg.
  change ("scale='if(gt(iw,ih)," +:+ str_of_int m +:+ ",-1)':'if(gt(iw,ih),-1,"
            +:+ str_of_int m +:+ ")'")
    with ("scale='" +:+
          ("if(gt(iw,ih)," +:+ str_of_int m +:+ "," +:+ str_of_int (-1) +:+ ")" +:+
           ("':'" +:+
            ("if(gt(iw,ih)," +:+ str_of_int (-1) +:+ "," +:+ str_of_int m +:+ ")" +:+ "'")))).
  change (FFmpeg.strip_prefix "scale='" ("scale='" +:+ ?x)) with (Some x).
  cbn [mbind option_bind].
  rewrite (parse_expr_if_gt k m (-1)
             ("':'" +:+ "if(gt(iw,ih)," +:+ str_of_int (-1) +:+ "," +:+ str_of_int m
                +:+ ")" +:+ "'")).
  cbn [mbind option_bind].
  change (FFmpeg.strip_prefix "':'" ("':'" +:+ ?x)) with (Some x).
  cbn [mbind option_bind].
  rewrite (parse_expr_if_gt k (-1) m "'").
  reflexivity.
Qed.

End ffmpeg_facts.

Section scale_facts.






End scale_facts.

Section trace_facts.

Implicit Types (tr : list event) (argv : cli) (fs : FS).

Lemma spawned_app tr1 tr2 : spawned (tr1 ++ tr2) = (spawned tr1 ++ spawned tr2)%list.
Proof. apply omap_app. Qed.

Lemma spawned_preamble wording argv fs : spawned (preamble wording argv fs) = [].
Proof. by destruct argv. Qed.

Lemma spawned_jobs (js : list (Path * Z * Z)) :
  spawned (flat_map job_trace js)
  = map (fun '(p, m, q) => folderResizer.command p m q) js.
Proof.
  induction js as [|[[p m] q] js IH]; [done|].
  cbn [flat_map map]. rewrite spawned_app, IH. done.
Qed.

Lemma map_command_jobs (images : list Path) m q :
  map (fun '(p, m, q) => folderResizer.command p m q) (folderResizer.jobs images m q)
  = map (fun p => folderResizer.command p m q) images.
Proof. unfold folderResizer.jobs. rewrite map_map. done. Qed.

(** The children of a dispatch are the commands of the input files, each
    once, in the order the pool picked. *)
Lemma spawned_dispatch (pool : scheduler (Path * Z * Z)) (images : list Path) m q :
  spawned (flat_map job_trace (order pool (folderResizer.jobs images m q)))
  ≡ₚ map (fun p => folderResizer.command p m q) images.
Proof.
  rewrite spawned_jobs, <- map_command_jobs.
  apply Permutation_map, order_perm.
Qed.

Lemma order_nil (pool : scheduler (Path * Z * Z)) : order pool [] = [].
Proof. apply Permutation_nil. symmetry. apply order_perm. Qed.

(** The scan finds each image entry once: the two patterns do not overlap. *)
Lemma selected_matched fs : selected fs ≡ₚ matched fs.
Proof.
  unfold selected, matched. rewrite filter_disjoint_app by apply jpg_jpeg_disjoint.
  erewrite list_filter_iff; [done|].
  intros n. unfold is_image_name. by rewrite orb_true_iff.
Qed.

Lemma length_folder_inputs m q fs :
  length (inputs (cli_folder m q) fs) = length (matched fs).
Proof. cbn [inputs]. rewrite length_map. apply Permutation_length, selected_matched. Qed.

(** Which paths the directory scan selects: the one-component names that
    exist and end in [.jpg] or [.jpeg], as written. *)
Lemma folder_inputs_spec m q fs (p : Path) :
  p ∈ inputs (cli_folder m q) fs <->
  exists n, p = mkPath "" [n] /\ n ∈ fs /\ is_entry_name n = true /\ is_image_name n = true.
Proof.
  cbn [inputs]. rewrite list_elem_of_fmap. split.
  - intros (n & -> & Hn). exists n. split; [done|].
    rewrite selected_matched in Hn. unfold matched in Hn.
    apply list_elem_of_filter in Hn as [Himg Hent].
    apply elem_of_entries in Hent as [? ?]. done.
  - intros (n & -> & Hfs & Hent & Himg). exists n. split; [done|].
    rewrite selected_matched. unfold matched.
    apply list_elem_of_filter. split; [done|]. by apply elem_of_entries.
Qed.

(** Distinct file names that do not end in a dot give distinct output
    paths. *)
Lemma outputs_distinct (images : list Path) m q :
  Forall valid_path images ->
  NoDup (map name images) ->
  Forall (fun p => endswith (name p) "." = false) images ->
  NoDup (map (fun p => output_arg (folderResizer.command p m q)) images).
Proof.
  intros Hvalid Hnd Hdot. eapply NoDup_map_via; [|exact Hnd].
  intros p1 p2 H1 H2. rewrite !output_arg_command.
  rewrite !output_name_as_posix
    by (eapply (proj1 (Forall_forall _ _) Hvalid); done).
  intros Heq%String.app_inj.
  apply output_filename_inj; [| |done];
    eapply (proj1 (Forall_forall _ _) Hdot); done.
Qed.

Lemma image_name_no_trailing_dot n : is_image_name n = true -> endswith n "." = false.
Proof.
  intros Himg. destruct (endswith n ".") eqn:Hdot; [exfalso|done].
  revert Hdot. unfold endswith at 1. cbn [String.length].
  intros [H1%Nat.leb_le E1%String.eqb_eq]%andb_true_iff.
  unfold is_image_name, endswith in Himg. cbn [String.length] in Himg.
  apply orb_true_iff in Himg
    as [[H4%Nat.leb_le E4%String.eqb_eq]%andb_true_iff
       |[H5%Nat.leb_le E5%String.eqb_eq]%andb_true_iff].
  - replace (String.length n - 1)%nat with (3 + (String.length n - 4))%nat in E1 by lia.
    rewrite <- drop_drop, E4 in E1. done.
  - replace (String.length n - 1)%nat with (4 + (String.length n - 5))%nat in E1 by lia.
    rewrite <- drop_drop, E5 in E1. done.
Qed.

(** In directory-scan mode the output paths never collide. *)
Lemma scan_outputs_distinct m q fs M Q :
  NoDup (map (fun p => output_arg (folderResizer.command p M Q)) (inputs (cli_folder m q) fs)).
Proof.
  assert (forall n, n ∈ selected fs -> is_entry_name n = true /\ is_image_name n = true) as Hsel.
  { intros n Hn. rewrite selected_matched in Hn.
    apply list_elem_of_filter in Hn as [? [_ ?]%elem_of_entries]. done. }
  cbn [inputs]. apply outputs_distinct.
  - apply Forall_forall. intros p (n & -> & Hn)%list_elem_of_fmap.
    constructor; [|constructor]. apply is_entry_name_valid, Hsel, Hn.
  - rewrite map_map. cbn. rewrite map_id, selected_matched.
    apply NoDup_filter, entries_NoDup.
  - apply Forall_forall. intros p (n & -> & Hn)%list_elem_of_fmap.
    apply image_name_no_trailing_dot, Hsel, Hn.
Qed.


End trace_facts.

(* ===================================================================== *)
(** * The properties of the specification *)
(* ===================================================================== *)

(** C1. If the output directory [./resized] already exists when the
    dispatcher runs, the run ends with exit status 1; the last thing it
    prints is the request to remove or rename the directory; no child
    process was started and the file system is as it was. This holds for
    both programs and for every well-formed command line. *)
Theorem C1_existing_output_directory_aborts
    (exec : tool) (pool : scheduler (Path * Z * Z)) (argv : cli) (w : world) :
  well_formed argv ->
  as_posix (PurePath "./resized") ∈ files w ->
  (exists tr,
      python (folderResizer.main exec pool argv) w = (1, World (files w) (console w ++ tr))
      /\ last tr
         = Some (Print "Please remove or rename existing 'resized' folder to ensure no file loss")
      /\ spawned tr = [])
  /\ (exists tr,
      python (imageResizer.main exec pool argv) w = (1, World (files w) (console w ++ tr))
      /\ last tr
         = Some (Print "Please remove or rename existing 'resized' folder to ensure no file loss")
      /\ spawned tr = []).
Proof.
  intros Hwf Hin. change (as_posix (PurePath "./resized")) with "resized" in Hin.
  split.
  - rewrite folder_main_run by done. cbv zeta. rewrite decide_True by done.
    eexists. split; [reflexivity|]. split; [apply last_snoc|].
    by rewrite spawned_app, spawned_preamble.
  - rewrite image_main_run by done. cbv zeta. rewrite decide_True by done.
    eexists. split; [reflexivity|]. split; [apply last_snoc|].
    by rewrite spawned_app, spawned_preamble.
Qed.

Lemma C1_witness :
  well_formed (cli_folder None None)
  /\ as_posix (PurePath "./resized") ∈ files Examples.second_run
  /\ (exists tr,
        python (folderResizer.main Examples.quiet_tool Examples.fifo (cli_folder None None))
               Examples.second_run
        = (1, World (files Examples.second_run) (console Examples.second_run ++ tr))
        /\ last tr
           = Some (Print
                     "Please remove or rename existing 'resized' folder to ensure no file loss")
        /\ spawned tr = []).
Proof.
  split; [exact I|]. split; [vm_compute; reflexivity|].
  apply (C1_existing_output_directory_aborts
           Examples.quiet_tool Examples.fifo (cli_folder None None) Examples.second_run).
  - exact I.
  - vm_compute. reflexivity.
Defined.




(** The frames of the example scenario. *)
Example scale_scenario :
  FFmpeg.scale "scale='if(gt(iw,ih),1999,-1)':'if(gt(iw,ih),-1,1999)'" 4000 3000
    = Some (1999, 1499)
  /\ FFmpeg.scale "scale='if(gt(iw,ih),1999,-1)':'if(gt(iw,ih),-1,1999)'" 1000 2000
    = Some (1000, 1999).
Proof. split; vm_compute; reflexivity. Qed.

(** C3, with the condition under which output paths are distinct. For
    every list of valid input paths and every order the pool picks, the
    dispatcher starts exactly one child per input file, the command of
    that file; the output argument of each command is the file
    [<stem>_resized<suffix>] in the directory [./resized]; and these
    output paths are pairwise distinct whenever the file names of the
    inputs are pairwise distinct and none of them ends in a dot.
    [imageResizer.process_images] is the same dispatch. *)
Theorem C3_one_child_per_input
    (exec : tool) (pool : scheduler (Path * Z * Z)) (images : list Path) (m q : Z) (w : world) :
  Forall valid_path images ->
  (exists fs' tr,
      folderResizer.dispatch exec pool images m q w = (Ok tt, World fs' (console w ++ tr))
      /\ spawned tr ≡ₚ map (fun p => folderResizer.command p m q) images
      /\ length (spawned tr) = length images)
  /\ Forall (fun p =>
        output_arg (folderResizer.command p m q)
        = as_posix (make_child_relpath (PurePath "./resized") (output_filename p))) images
  /\ (NoDup (map name images) ->
      Forall (fun p => endswith (name p) "." = false) images ->
      NoDup (map (fun p => output_arg (folderResizer.command p m q)) images))
  /\ (forall output_folder,
      imageResizer.process_images exec pool images output_folder m q w
      = folderResizer.dispatch exec pool images m q w).
Proof.
  intros Hvalid. split; [|split; [|split]].
  - rewrite dispatch_run. eexists _, _. split; [reflexivity|].
    pose proof (spawned_dispatch pool images m q) as Hperm.
    split; [done|]. by rewrite Hperm, length_map.
  - eapply Forall_impl; [exact Hvalid|]. intros p Hp. cbv beta.
    rewrite output_arg_command, output_name_as_posix by done. done.
  - intros Hnd Hdot. by apply outputs_distinct.
  - reflexivity.
Qed.

Lemma C3_witness :
  let images := [PurePath "a.jpg"; PurePath "b.jpeg"] in
  Forall valid_path images
  /\ NoDup (map (fun p => output_arg (folderResizer.command p 1999 1)) images).
Proof.
  cbv zeta.
  assert (Forall valid_path [PurePath "a.jpg"; PurePath "b.jpeg"]) as Hvalid
    by (vm_compute; repeat constructor; discriminate).
  split; [exact Hvalid|].
  apply (C3_one_child_per_input Examples.quiet_tool Examples.lifo
           [PurePath "a.jpg"; PurePath "b.jpeg"] 1999 1 Examples.scenario Hvalid).
  - apply (bool_decide_unpack _). vm_compute. exact I.
  - repeat constructor; vm_compute; reflexivity.
Defined.

(** Without that condition the output paths can collide: two distinct
    input files with the same file name get the same output path (C3). *)
Lemma C3_counterexample :
  let images := [PurePath "a/x.jpg"; PurePath "b/x.jpg"] in
  NoDup images /\ Forall valid_path images
  /\ ~ NoDup (map (fun p => output_arg (folderResizer.command p 1999 1)) images).
Proof.
  cbv zeta. split; [|split].
  - apply (bool_decide_unpack _). vm_compute. exact I.
  - constructor; [apply PurePath_valid|constructor; [apply PurePath_valid|constructor]].
  - vm_compute. intros H. apply NoDup_cons in H as [H _]. apply H. left.
Qed.

(** C4. In directory-scan mode a file whose extension is an upper-case
    variant of [jpg] is an entry of the directory and its extension is
    recognized as a case variant, yet neither program selects it: the
    scan finds no image and counts the file as ignored. *)
Theorem C4_upper_case_extension_not_selected :
  let args := mkNamespace (Some "folder") None (Some 1999) (Some 1) in
  "A.JPG" ∈ entries (files Examples.upper_case)
  /\ recognized_extension (suffix (PurePath "A.JPG")) = true
  /\ folderResizer.resolve_images args Examples.upper_case
     = (Ok [], World (files Examples.upper_case) [Print "Ignoring 1 files"])
  /\ imageResizer.resolve_images args Examples.upper_case
     = (Ok [], World (files Examples.upper_case) [Print "Ignoring 1 files"]).
Proof.
  cbv zeta. split; [|split; [|split]].
  - apply elem_of_entries. split; [vm_compute|]; reflexivity.
  - vm_compute. reflexivity.
  - rewrite (resolve_images_folder None None). vm_compute. reflexivity.
  - change (imageResizer.resolve_images ?a) with (folderResizer.resolve_images a).
    rewrite (resolve_images_folder None None). vm_compute. reflexivity.
Qed.

(** C5. In directory-scan mode, for every content of the directory, both
    programs first print the number of entries minus the number of image
    entries as the count of ignored files, then the number of image
    entries as the count of images found. *)
Theorem C5_scan_counts
    (exec : tool) (pool : scheduler (Path * Z * Z)) (m q : option Z) (w : world) :
  let total := Z.of_nat (length (entries (files w))) in
  let found := Z.of_nat (length (matched (files w))) in
  (exists code fs' tr,
      python (folderResizer.main exec pool (cli_folder m q)) w
      = (code, World fs' (console w
                          ++ Print ("Ignoring " ++ str_of_int (total - found) ++ " files")
                          :: Print ("Found " ++ str_of_int found ++ " images") :: tr)))
  /\ (exists code fs' tr,
      python (imageResizer.main exec pool (cli_folder m q)) w
      = (code, World fs' (console w
                          ++ Print ("Ignoring " ++ str_of_int (total - found) ++ " files")
                          :: Print ("Found " ++ str_of_int found ++ " images") :: tr))).
Proof.
  cbv zeta. rewrite <- (length_folder_inputs m q). split.
  - rewrite folder_main_run by done. cbv zeta.
    destruct (decide ("resized" ∈ files w)); eexists _, _, _; reflexivity.
  - rewrite image_main_run by done. cbv zeta.
    destruct (decide ("resized" ∈ files w)); eexists _, _, _; reflexivity.
Qed.

(** The counts of the example scenario. *)
Example scan_scenario :
  firstn 2 (console (snd (python (folderResizer.main Examples.quiet_tool Examples.fifo
                                    (cli_folder None None)) Examples.scenario)))
  = [Print "Ignoring 1 files"; Print "Found 2 images"].
Proof. vm_compute. reflexivity. Qed.

(** C6. For every job and whatever the child does - its exit status and
    what it writes to its standard output and standard error - the worker
    of either program starts the child, waits for it, prints the
    completion notice after it, and returns normally; the console shows
    the child and the notice and nothing else, and a dispatch of any list
    of jobs returns normally as well. *)
Theorem C6_child_outcome_ignored
    (exec : tool) (pool : scheduler (Path * Z * Z)) (p : Path) (m q : Z) (w : world) :
  let child := exec (folderResizer.command p m q) (files w) in
  let after := World (files_after child)
                 (console w ++ [Spawn (folderResizer.command p m q);
                                Print ("Finished processing " ++ name p)]) in
  folderResizer.process_image exec p m q w = (Ok tt, after)
  /\ imageResizer._process_image exec p m q imageResizer.verbose_default w = (Ok tt, after)
  /\ (forall images, exists w', folderResizer.dispatch exec pool images m q w = (Ok tt, w'))
  /\ (forall images o, exists w',
         imageResizer.process_images exec pool images o m q w = (Ok tt, w')).
Proof.
  cbv zeta. split; [|split; [|split]].
  - apply process_image_run.
  - rewrite _process_image_run. apply process_image_run.
  - intros images. rewrite dispatch_run. by eexists.
  - intros images o. rewrite process_images_run, dispatch_run. by eexists.
Qed.

(** A pool that runs the jobs in reverse starts the same children. *)
Example reversed_pool :
  spawned (console (snd (folderResizer.dispatch Examples.quiet_tool Examples.lifo
                           [PurePath "a.jpg"; PurePath "b.jpeg"] 1999 1 Examples.scenario)))
  = [folderResizer.command (PurePath "b.jpeg") 1999 1;
     folderResizer.command (PurePath "a.jpg") 1999 1].
Proof. reflexivity. Qed.

(** A noisy, failing child leaves the same console as a quiet, successful
    one. *)
Example noisy_failure_unreported :
  console (snd (folderResizer.process_image Examples.noisy_failing_tool
                  (PurePath "a.jpg") 1999 1 Examples.scenario))
  = console (snd (folderResizer.process_image Examples.quiet_tool
                    (PurePath "a.jpg") 1999 1 Examples.scenario)).
Proof. reflexivity. Qed.



(** C8. When the command line resolves to an empty list of input files
    and [./resized] does not exist, a run of either program starts no
    child process, creates the output directory, ends by reporting zero
    files processed, and exits with status 0. *)
Theorem C8_no_input_files
    (exec : tool) (pool : scheduler (Path * Z * Z)) (argv : cli) (args : Namespace)
    (w w1 : world) :
  folderResizer.parse_args argv w = (Ok args, w) ->
  folderResizer.resolve_images args w = (Ok [], w1) ->
  as_posix (PurePath "./resized") ∉ files w ->
  (exists tr,
      python (folderResizer.main exec pool argv) w
      = (0, World ({[ as_posix (PurePath "./resized") ]} ∪ files w) (console w ++ tr))
      /\ spawned tr = []
      /\ last tr = Some (Print "Finished processing 0 files."))
  /\ (exists tr,
      python (imageResizer.main exec pool argv) w
      = (0, World ({[ as_posix (PurePath "./resized") ]} ∪ files w) (console w ++ tr))
      /\ spawned tr = []
      /\ last tr = Some (Print "Finished processing 0 files.")).
Proof.
  intros Hparse Hresolve Hnot.
  change (as_posix (PurePath "./resized")) with "resized" in *.
  assert (well_formed argv /\ inputs argv (files w) = []) as [Hwf Hnil].
  { destruct argv as [|m q|image m q].
    - injection Hparse as <-. discriminate Hresolve.
    - injection Hparse as <-. rewrite resolve_images_folder in Hresolve.
      inversion Hresolve as [[Hin Hw]]. by rewrite Hin.
    - destruct image as [|i image]; [discriminate Hparse|].
      injection Hparse as <-.
      pose proof (eq_trans (eq_sym (resolve_images_image (i :: image) m q w)) Hresolve) as Hc.
      inversion Hc. }
  split.
  - rewrite folder_main_run by done. cbv zeta. rewrite decide_False by done.
    rewrite Hnil. cbn [folderResizer.jobs map]. rewrite (order_nil pool).
    cbn [files_after_jobs flat_map length app].
    eexists. split; [reflexivity|]. split; [|apply last_snoc].
    by rewrite spawned_app, spawned_preamble.
  - rewrite image_main_run by done. cbv zeta. rewrite decide_False by done.
    rewrite Hnil. cbn [folderResizer.jobs map]. rewrite (order_nil pool).
    cbn [files_after_jobs flat_map length app].
    eexists. split; [reflexivity|]. split; [|apply last_snoc].
    by rewrite spawned_app, spawned_preamble.
Qed.

Lemma C8_witness :
  exists tr,
    python (folderResizer.main Examples.quiet_tool Examples.fifo (cli_folder None None))
           Examples.no_images
    = (0, World ({[ as_posix (PurePath "./resized") ]} ∪ files Examples.no_images)
                (console Examples.no_images ++ tr))
    /\ spawned tr = []
    /\ last tr = Some (Print "Finished processing 0 files.").
Proof.
  apply (C8_no_input_files Examples.quiet_tool Examples.fifo (cli_folder None None)
           (mkNamespace (Some "folder") None (Some 1999) (Some 1))
           Examples.no_images (World (files Examples.no_images) [Print "Ignoring 1 files"])).
  - reflexivity.
  - vm_compute. reflexivity.
  - vm_compute. intros H. discriminate H.
Defined.

(** C9. [process_images] ignores its [output_folder] argument: two calls
    that differ only in it behave identically - same result, same file
    system, same console, hence the same command lines. With valid input
    paths every output argument is a file directly below the fixed
    directory [resized], whatever folder was passed. *)
Theorem C9_output_folder_ignored
    (exec : tool) (pool : scheduler (Path * Z * Z)) (images : list Path)
    (o1 o2 : Path) (m q : Z) (w : world) :
  Forall valid_path images ->
  imageResizer.process_images exec pool images o1 m q w
  = imageResizer.process_images exec pool images o2 m q w
  /\ exists fs' tr,
       imageResizer.process_images exec pool images o1 m q w
       = (Ok tt, World fs' (console w ++ tr))
       /\ Forall (fun cmd => exists f,
                    output_arg cmd = "resized/" +:+ f /\ contains "/" f = false)
                 (spawned tr).
Proof.
  intros Hvalid. split; [reflexivity|].
  rewrite process_images_run, dispatch_run. eexists _, _. split; [reflexivity|].
  rewrite (spawned_dispatch pool images m q).
  apply Forall_forall. intros cmd (p & -> & Hp)%list_elem_of_fmap.
  pose proof (proj1 (Forall_forall _ _) Hvalid p Hp) as Hv.
  exists (output_filename p). split.
  - rewrite output_arg_command. by apply output_name_as_posix.
  - by destruct (output_filename_valid p Hv) as (_ & _ & ?).
Qed.

Lemma C9_witness :
  imageResizer.process_images Examples.quiet_tool Examples.fifo
    [PurePath "a.jpg"] (PurePath "./resized") 1999 1 Examples.scenario
  = imageResizer.process_images Examples.quiet_tool Examples.fifo
      [PurePath "a.jpg"] (PurePath "/tmp/elsewhere") 1999 1 Examples.scenario.
Proof.
  apply (C9_output_folder_ignored Examples.quiet_tool Examples.fifo [PurePath "a.jpg"]
           (PurePath "./resized") (PurePath "/tmp/elsewhere") 1999 1 Examples.scenario).
  vm_compute. repeat constructor; discriminate.
Defined.

(** C10. For every input path, max length and quality,
    [folderResizer.process_image] and [imageResizer._process_image] at its
    default verbosity build the same command list, word for word, and
    behave the same on every world. *)
Theorem C10_modules_agree_per_job (exec : tool) (p : Path) (m q : Z) (w : world) :
  folderResizer.command p m q = imageResizer.command p m q
  /\ imageResizer.command p m q
     = [ "ffmpeg"; "-i"; as_posix p;
         "-vf"; "scale='if(gt(iw,ih)," +:+ str_of_int m +:+ ",-1)':'if(gt(iw,ih),-1,"
                  +:+ str_of_int m +:+ ")'";
         "-q:v"; str_of_int q;
         as_posix (PurePath ("./resized/" +:+ stem p +:+ "_resized" +:+ suffix p)) ]
  /\ folderResizer.process_image exec p m q w
     = imageResizer._process_image exec p m q imageResizer.verbose_default w.
Proof. split; [|split]; reflexivity. Qed.

(* ===================================================================== *)
(** * Further properties of the two programs *)
(* ===================================================================== *)

Section pathlib_round_trip.

Implicit Types (s t : string) (l : list string) (p : Path).

Lemma join_cons_valid x l :
  l <> [] -> join "/" (x :: l) = x +:+ String "/" (join "/" l).
Proof. destruct l; [done|]. intros _. reflexivity. Qed.

(** Splitting what [join] built gives the components back. *)
Lemma split_join l :
  l <> [] -> Forall (fun x => contains "/" x = false) l -> split "/" (join "/" l) = l.
Proof.
  intros Hne Hl. induction Hl as [|x l Hx Hl IH]; [done|].
  destruct l as [|y l].
  - cbn [join]. by apply split_no_sep.
  - rewrite join_cons_valid by done. rewrite split_sep by done.
    f_equal. by apply IH.
Qed.

Lemma filter_valid_components l :
  Forall valid_component l -> filter (fun x : string => x <> "" /\ x <> ".") l = l.
Proof.
  intros Hl. induction Hl as [|x l (H1 & H2 & _) Hl IH]; [done|].
  rewrite filter_cons, decide_True by done. by rewrite IH.
Qed.

(** A joined list of valid components does not start with a separator. *)
Lemma join_head l :
  l <> [] -> Forall valid_component l ->
  exists c t, join "/" l = String c t /\ Ascii.eqb c "/" = false.
Proof.
  intros Hne Hl. destruct Hl as [|x l (H1 & _ & H3) Hl]; [done|].
  destruct x as [|c x]; [done|]. cbn [contains] in H3.
  apply orb_false_elim in H3 as [Hc _].
  destruct l; cbn [join String.append]; eauto.
Qed.

Lemma PurePath_relative l :
  Forall valid_component l -> PurePath (as_posix (mkPath "" l)) = mkPath "" l.
Proof.
  intros Hl. destruct (decide (l = [])) as [->|Hne]; [done|].
  destruct (join_head l Hne Hl) as (c & t & Hj & Hc).
  unfold as_posix. cbn [root parts String.append]. rewrite Hj. cbn [String.eqb].
  unfold PurePath.
  assert (splitroot (String c t) = ("", String c t)) as ->.
  { unfold splitroot. destruct (Ascii.eqb_spec c "/") as [->|Hn]; [done|].
    destruct c as [[] [] [] [] [] [] [] []]; try done. }
  rewrite <- Hj, split_join.
  - by rewrite filter_valid_components.
  - done.
  - eapply Forall_impl; [exact Hl|]. by intros x (_ & _ & ?).
Qed.

Lemma lstrip_head c t : Ascii.eqb c "/" = false -> lstrip "/" (String c t) = String c t.
Proof. intros Hc. cbn [lstrip]. by rewrite Hc. Qed.

Lemma PurePath_rooted (k : nat) l :
  (k = 1 \/ k = 2)%nat -> Forall valid_component l ->
  let r := if (k =? 1)%nat then "/" else "//" in
  PurePath (as_posix (mkPath r l)) = mkPath r l.
Proof.
  intros Hk Hl r. destruct (decide (l = [])) as [->|Hne].
  { destruct Hk as [-> | ->]; reflexivity. }
  destruct (join_head l Hne Hl) as (c & t & Hj & Hc).
  assert (split "/" (String c t) = l) as Hsplit.
  { rewrite <- Hj. apply split_join; [done|].
    eapply Forall_impl; [exact Hl|]. by intros x (_ & _ & ?). }
  unfold as_posix. cbn [root parts]. rewrite Hj.
  destruct Hk as [-> | ->]; subst r; cbn [Nat.eqb String.append String.eqb];
    unfold PurePath, splitroot; cbn [lstrip Ascii.eqb Bool.eqb]; rewrite Hc;
    rewrite !len_String.
  - replace (len t + 1 + 1 - (len t + 1) =? 2) with false by (symmetry; apply Z.eqb_neq; lia).
    by rewrite Hsplit, filter_valid_components.
  - replace (len t + 1 + 1 + 1 - (len t + 1) =? 2) with true by (symmetry; apply Z.eqb_eq; lia).
    by rewrite Hsplit, filter_valid_components.
Qed.

Lemma lstrip_len s : len (lstrip "/" s) <= len s.
Proof.
  induction s as [|a s IH]; cbn [lstrip]; [lia|].
  destruct (Ascii.eqb a "/"); rewrite ?len_String; lia.
Qed.

(** The constructor only produces the roots [""], ["/"] and ["//"]. *)
Lemma PurePath_root s :
  root (PurePath s) = "" \/ root (PurePath s) = "/" \/ root (PurePath s) = "//".
Proof.
  unfold PurePath. destruct (splitroot s) as [r rel] eqn:E. cbn [root].
  unfold splitroot in E. destruct s as [|a s]; [injection E as <- _; by left|].
  destruct (Ascii.eqb_spec a "/") as [->|Hn].
  - destruct (_ =? 2); injection E as <- _; auto.
  - left. destruct a as [[] [] [] [] [] [] [] []]; try done; by injection E as <- _.
Qed.

(** Printing a path and reading it again gives the path back. *)
Lemma PurePath_as_posix s : PurePath (as_posix (PurePath s)) = PurePath s.
Proof.
  pose proof (PurePath_valid s) as Hv. pose proof (PurePath_root s) as Hr.
  destruct (PurePath s) as [r l]. cbn [root] in Hr. unfold valid_path in Hv. cbn [parts] in Hv.
  destruct Hr as [-> | [-> | ->]].
  - by apply PurePath_relative.
  - by apply (PurePath_rooted 1); [left|].
  - by apply (PurePath_rooted 2); [right|].
Qed.

End pathlib_round_trip.

Section run_properties.

Variable exec : tool.
Variable pool : scheduler (Path * Z * Z).

Implicit Types (w : world) (argv : cli).

(** A command line without subcommand: [args.image] does not exist. *)
Lemma main_no_subcommand w :
  python (folderResizer.main exec pool cli_none) w = (1, w)
  /\ python (imageResizer.main exec pool cli_none) w = (1, w).
Proof. by split. Qed.

(** [image] without a path: the parser exits with status 2. *)
Lemma main_usage_error m q w :
  python (folderResizer.main exec pool (cli_image [] m q)) w = (2, w)
  /\ python (imageResizer.main exec pool (cli_image [] m q)) w = (2, w).
Proof. by split. Qed.

Lemma well_formed_cases argv :
  argv = cli_none \/ (exists m q, argv = cli_image [] m q) \/ well_formed argv.
Proof.
  destruct argv as [|m q|[|i image] m q]; [by left|by right; right|right; left; eauto|].
  by right; right.
Qed.


Lemma files_after_jobs_keeps (js : list (Path * Z * Z)) fs :
  keeps_output_directory exec -> "resized" ∈ fs -> "resized" ∈ files_after_jobs exec js fs.
Proof.
  intros Hk. revert fs. induction js as [|[[p m] q] js IH]; intros fs Hfs; [done|].
  cbn [files_after_jobs]. apply IH, Hk, Hfs.
Qed.

(** Whatever the command line, a run of [folderResizer.main] leaves the
    output directory behind if the tool keeps it, unless the command line
    was rejected before the directory was made. *)
Lemma folder_main_leaves_directory argv w :
  keeps_output_directory exec -> well_formed argv ->
  "resized" ∈ files (snd (python (folderResizer.main exec pool argv) w)).
Proof.
  intros Hk Hwf. rewrite folder_main_run by done. cbv zeta.
  destruct (decide ("resized" ∈ files w)); cbn [snd files]; [done|].
  apply files_after_jobs_keeps; [done|]. set_solver.
Qed.

Lemma image_main_leaves_directory argv w :
  keeps_output_directory exec -> well_formed argv ->
  "resized" ∈ files (snd (python (imageResizer.main exec pool argv) w)).
Proof.
  intros Hk Hwf. rewrite image_main_run by done. cbv zeta.
  destruct (decide ("resized" ∈ files w)); cbn [snd files]; [done|].
  apply files_after_jobs_keeps; [done|]. set_solver.
Qed.

End run_properties.



(** X3. In explicit-file mode with no [resized] directory, either program
    reports the number of paths listed, starts exactly one child per path
    listed - a path listed twice is processed twice - prints no scan
    report, and exits with status 0. *)
Theorem X3_image_mode_processes_the_paths_listed
    (exec : tool) (pool : scheduler (Path * Z * Z)) (i : string) (image : list string)
    (m q : option Z) (w : world) :
  as_posix (PurePath "./resized") ∉ files w ->
  forall main, main = folderResizer.main \/ main = imageResizer.main ->
  exists fs' tr,
    python (main exec pool (cli_image (i :: image) m q)) w
    = (0, World fs'
            (console w
             ++ Print ("Found " ++ str_of_int (Z.of_nat (length (i :: image))) ++ " images")
             :: tr))
    /\ spawned tr
       ≡ₚ map (fun s => folderResizer.command (PurePath s) (default 1999 m) (default 1 q))
              (i :: image).
Proof.
  intros Hnot main Hmain. change (as_posix (PurePath "./resized")) with "resized" in Hnot.
  assert (well_formed (cli_image (i :: image) m q)) as Hwf by done.
  assert (forall wording,
            spawned ([Print (wording ++ str_of_int (default 1999 m) ++ " with quality "
                             ++ str_of_int (default 1 q))]
                     ++ flat_map job_trace
                          (order pool (folderResizer.jobs (map PurePath (i :: image))
                                         (default 1999 m) (default 1 q)))
                     ++ [summary (length (map PurePath (i :: image)))])
            ≡ₚ map (fun s => folderResizer.command (PurePath s) (default 1999 m) (default 1 q))
                   (i :: image)) as Hsp.
  { intros wording. rewrite !spawned_app. cbn [spawned omap list_omap app].
    rewrite app_nil_r, spawned_dispatch, map_map. done. }
  destruct Hmain as [-> | ->].
  - rewrite folder_main_run by done. cbv zeta. rewrite decide_False by done.
    eexists _, _. split; [|apply (Hsp "Resizing images to max length ")].
    unfold preamble. cbn [scan_report inputs given_max_length given_quality app].
    by rewrite length_map.
  - rewrite image_main_run by done. cbv zeta. rewrite decide_False by done.
    eexists _, _. split; [|apply (Hsp "Resizing images to max length (any side) ")].
    unfold preamble. cbn [scan_report inputs given_max_length given_quality app].
    by rewrite length_map.
Qed.

Lemma X3_witness :
  exists fs' tr,
    python (folderResizer.main Examples.quiet_tool Examples.lifo
              (cli_image ["a/x.jpg"; "a/x.jpg"] None None)) Examples.scenario
    = (0, World fs' (console Examples.scenario ++ Print "Found 2 images" :: tr))
    /\ spawned tr
       ≡ₚ [folderResizer.command (PurePath "a/x.jpg") 1999 1;
           folderResizer.command (PurePath "a/x.jpg") 1999 1].
Proof.
  apply (X3_image_mode_processes_the_paths_listed Examples.quiet_tool Examples.lifo
           "a/x.jpg" ["a/x.jpg"] None None Examples.scenario).
  - vm_compute. intros H. discriminate H.
  - left. reflexivity.
Defined.

Section scan_properties.

Implicit Types (w : world) (args : Namespace).

(** The scan of any [folder] namespace. *)
Lemma resolve_images_scan args w :
  folder_namespace args ->
  folderResizer.resolve_images args w
  = (Ok (inputs (cli_folder None None) (files w)),
     World (files w) (console w ++ scan_report (cli_folder None None) (files w))).
Proof.
  intros Hf. unfold folder_namespace in Hf. unfold folderResizer.resolve_images.
  rewrite decide_True by done. cbn [folderResizer.extend_globs].
  unfold mbind, py_bind, bind, glob, mret, py_ret, ret, print. cbn [files console].
  rewrite length_map, glob_all. cbn [app]. by rewrite glob_jpg_jpeg.
Qed.

Lemma selected_NoDup fs : NoDup (selected fs).
Proof. rewrite selected_matched. apply NoDup_filter, entries_NoDup. Qed.

(** Entries are image entries or not. *)
Lemma length_entries_split fs :
  length (entries fs)
  = (length (matched fs)
     + length (filter (fun n => is_image_name n = false) (entries fs)))%nat.
Proof.
  unfold matched. induction (entries fs) as [|n l IH]; [done|].
  rewrite !filter_cons. destruct (is_image_name n) eqn:E.
  - rewrite decide_True, decide_False by done. cbn [length]. lia.
  - rewrite decide_False, decide_True by done. cbn [length]. lia.
Qed.

End scan_properties.

(** X4. The directory scan of either program returns, without
    repetition, exactly the paths [Path(n)] of the entries [n] of the
    working directory whose name ends in [.jpg] or in [.jpeg], as written:
    files and directories alike, hidden ones included, nothing from below
    a subdirectory. The file system is left as it was. *)
Theorem X4_scan_selects_by_name_ending (args : Namespace) (w : world) :
  folder_namespace args ->
  exists images report,
    folderResizer.resolve_images args w = (Ok images, World (files w) (console w ++ report))
    /\ imageResizer.resolve_images args w = (Ok images, World (files w) (console w ++ report))
    /\ NoDup images
    /\ forall p, p ∈ images <->
         exists n, p = PurePath n /\ as_posix p = n /\ n ∈ files w
                   /\ is_entry_name n = true
                   /\ (endswith n ".jpg" = true \/ endswith n ".jpeg" = true).
Proof.
  intros Hf. eexists _, _. split; [by apply resolve_images_scan|].
  split; [by apply resolve_images_scan|]. split.
  - cbn [inputs]. apply NoDup_fmap_2.
    + intros x y [= ->]. done.
    + apply selected_NoDup.
  - intros p. rewrite (folder_inputs_spec None None). unfold is_image_name. split.
    + intros (n & -> & Hn & He & Hi). exists n.
      pose proof (is_entry_name_valid n He) as Hv.
      rewrite (PurePath_component n Hv). split; [done|]. split.
      * apply as_posix_component, Hv.
      * by apply orb_true_iff in Hi.
    + intros (n & -> & _ & Hn & He & Hi). exists n.
      rewrite (PurePath_component n (is_entry_name_valid n He)).
      by rewrite orb_true_iff.
Qed.

Lemma X4_witness :
  exists images report,
    folderResizer.resolve_images (mkNamespace (Some "folder") None (Some 1999) (Some 1))
      Examples.scenario
    = (Ok images, World (files Examples.scenario) (console Examples.scenario ++ report))
    /\ NoDup images.
Proof.
  destruct (X4_scan_selects_by_name_ending
              (mkNamespace (Some "folder") None (Some 1999) (Some 1)) Examples.scenario)
    as (images & report & H1 & _ & H3 & _); [reflexivity|].
  exists images, report. split; [exact H1|exact H3].
Defined.

(** X5. The number the scan reports as ignored is the number of entries
    of the working directory whose name ends neither in [.jpg] nor in
    [.jpeg]; it is never negative, and with the number of images found it
    adds up to the number of entries. *)
Theorem X5_ignored_counts_the_other_entries (args : Namespace) (w : world) :
  folder_namespace args ->
  let others := filter (fun n => is_image_name n = false) (entries (files w)) in
  exists images,
    folderResizer.resolve_images args w
    = (Ok images,
       World (files w)
             (console w
              ++ [Print ("Ignoring " ++ str_of_int (Z.of_nat (length others)) ++ " files")]))
    /\ imageResizer.resolve_images args w = folderResizer.resolve_images args w
    /\ (length images + length others = length (entries (files w)))%nat.
Proof.
  intros Hf others. eexists. split; [|split; [reflexivity|]].
  - rewrite resolve_images_scan by done. cbn [scan_report].
    assert (Z.of_nat (length (entries (files w)))
            - Z.of_nat (length (inputs (cli_folder None None) (files w)))
            = Z.of_nat (length others)) as ->; [|done].
    rewrite length_folder_inputs, (length_entries_split (files w)).
    subst others. lia.
  - rewrite length_folder_inputs, (length_entries_split (files w)). done.
Qed.

Lemma X5_witness :
  exists images,
    folderResizer.resolve_images (mkNamespace (Some "folder") None (Some 1999) (Some 1))
      Examples.scenario
    = (Ok images, World (files Examples.scenario) [Print "Ignoring 1 files"]).
Proof.
  destruct (X5_ignored_counts_the_other_entries
              (mkNamespace (Some "folder") None (Some 1999) (Some 1)) Examples.scenario)
    as (images & H1 & _ & _); [reflexivity|].
  exists images. rewrite H1. vm_compute. reflexivity.
Defined.

(** X6. What a run shows does not depend on the tool: for every command
    line and every start, two runs of the same program with different
    tools end with the same exit status and the same console - a child
    that fails, or writes nothing, is not noticed by the whole run
    either. *)
Theorem X6_run_does_not_observe_the_tool
    (exec1 exec2 : tool) (pool : scheduler (Path * Z * Z)) (argv : cli) (w : world) :
  forall main, main = folderResizer.main \/ main = imageResizer.main ->
  fst (python (main exec1 pool argv) w) = fst (python (main exec2 pool argv) w)
  /\ console (snd (python (main exec1 pool argv) w))
     = console (snd (python (main exec2 pool argv) w)).
Proof.
  intros main Hmain.
  destruct (well_formed_cases argv) as [-> | [(m & q & ->) | Hwf]].
  - destruct Hmain as [-> | ->]; by split.
  - destruct Hmain as [-> | ->]; by split.
  - destruct Hmain as [-> | ->].
    + rewrite !folder_main_run by done. cbv zeta.
      by destruct (decide ("resized" ∈ files w)).
    + rewrite !image_main_run by done. cbv zeta.
      by destruct (decide ("resized" ∈ files w)).
Qed.

Lemma X6_witness :
  console (snd (python (folderResizer.main Examples.noisy_failing_tool Examples.fifo
                          (cli_folder None None)) Examples.scenario))
  = console (snd (python (folderResizer.main Examples.quiet_tool Examples.fifo
                            (cli_folder None None)) Examples.scenario)).
Proof.
  apply (X6_run_does_not_observe_the_tool Examples.noisy_failing_tool Examples.quiet_tool
           Examples.fifo (cli_folder None None) Examples.scenario).
  left. reflexivity.
Defined.



(** X8. Running twice: if the tool never removes [resized], then after
    any run on a well-formed command line a second run - of either
    program, on any well-formed command line - exits with status 1, starts
    no child and leaves the file system as the first run left it. *)
Theorem X8_second_run_refuses
    (exec : tool) (pool : scheduler (Path * Z * Z)) (argv1 argv2 : cli) (w : world) :
  keeps_output_directory exec ->
  well_formed argv1 -> well_formed argv2 ->
  forall main1, main1 = folderResizer.main \/ main1 = imageResizer.main ->
  forall main2, main2 = folderResizer.main \/ main2 = imageResizer.main ->
  let w1 := snd (python (main1 exec pool argv1) w) in
  exists tr,
    python (main2 exec pool argv2) w1 = (1, World (files w1) (console w1 ++ tr))
    /\ spawned tr = [].
Proof.
  intros Hk Hwf1 Hwf2 main1 Hmain1 main2 Hmain2 w1.
  assert ("resized" ∈ files w1) as Hin.
  { subst w1. destruct Hmain1 as [-> | ->].
    - by apply folder_main_leaves_directory.
    - by apply image_main_leaves_directory. }
  clearbody w1.
  destruct Hmain2 as [-> | ->].
  - rewrite folder_main_run by done. cbv zeta. rewrite decide_True by done.
    eexists. split; [reflexivity|]. by rewrite spawned_app, spawned_preamble.
  - rewrite image_main_run by done. cbv zeta. rewrite decide_True by done.
    eexists. split; [reflexivity|]. by rewrite spawned_app, spawned_preamble.
Qed.

Lemma X8_witness :
  let w1 := snd (python (folderResizer.main Examples.quiet_tool Examples.fifo
                           (cli_folder None None)) Examples.scenario) in
  exists tr,
    python (imageResizer.main Examples.quiet_tool Examples.fifo (cli_image ["a.jpg"] None None))
           w1
    = (1, World (files w1) (console w1 ++ tr))
    /\ spawned tr = [].
Proof.
  apply (X8_second_run_refuses Examples.quiet_tool Examples.fifo (cli_folder None None)
           (cli_image ["a.jpg"] None None) Examples.scenario).
  - intros cmd fs H. unfold Examples.quiet_tool. cbn [files_after].
    apply elem_of_union. right. exact H.
  - exact I.
  - simpl. discriminate.
  - left. reflexivity.
  - right. reflexivity.
Defined.

Section output_name_properties.

Implicit Types (s t n : string) (p : Path).

Lemma len_drop k s : len (drop k s) = len s - Z.of_nat (Nat.min k (String.length s)).
Proof. unfold len. rewrite length_drop. lia. Qed.

Lemma name_output_name p :
  valid_path p -> name (folderResizer.output_name p) = output_filename p.
Proof. intros Hp. by rewrite output_name_parts. Qed.

(** Where the last [.] of an output file name is. *)
Lemma rfind_output_filename p :
  endswith (name p) "." = false ->
  (suffix p = "" /\ stem p = name p /\ rfind "." (output_filename p) <= 0)
  \/ (suffix p <> "" /\ rfind "." (output_filename p) = len (stem p) + 8
      /\ 2 <= len (suffix p)).
Proof.
  intros Hdot. pose proof (rfind_bounds "." (name p)) as Hb.
  unfold output_filename, stem, suffix, slice_to, slice_from.
  destruct (0 <? rfind "." (name p)) eqn:E0; cbn [andb].
  - apply Z.ltb_lt in E0.
    destruct (rfind "." (name p) <? len (name p) - 1) eqn:E1.
    + apply Z.ltb_lt in E1. right.
      destruct (rfind_split "." (name p)) as (t & Ht & Hc); [lia|].
      rewrite Ht. split; [done|].
      assert (len (String "." t) = len (name p) - rfind "." (name p)) as Hl.
      { rewrite <- Ht, len_drop. unfold len in *. lia. }
      split; [|lia].
      rewrite !rfind_app. cbn [rfind]. apply rfind_absent in Hc. rewrite Hc.
      change (len "_resized") with 8. cbn.
      change (0 <=? 8 + 0) with true. cbv iota. lia.
    + apply Z.ltb_ge in E1. rewrite rfind_last_endswith in Hdot; [done|lia|lia].
  - apply Z.ltb_ge in E0. left. split; [done|]. split; [done|].
    rewrite rfind_app. cbn. lia.
Qed.

Lemma length_len s : String.length s = Z.to_nat (len s).
Proof. unfold len. lia. Qed.

End output_name_properties.

(** X9. The output file keeps the type of the input file: for a valid
    input path whose name does not end in a dot, the output path has the
    suffix of the input and the stem of the input followed by
    [_resized]. *)
Theorem X9_output_keeps_the_suffix (p : Path) :
  valid_path p ->
  endswith (name p) "." = false ->
  suffix (folderResizer.output_name p) = suffix p
  /\ stem (folderResizer.output_name p) = stem p +:+ "_resized"
  /\ imageResizer.output_name p = folderResizer.output_name p.
Proof.
  intros Hp Hdot. split; [|split; [|reflexivity]].
  - unfold suffix at 1. rewrite name_output_name by done.
    destruct (rfind_output_filename p Hdot) as [(Hs & _ & Hr)|(Hs & Hr & Hl)].
    + replace (0 <? rfind "." (output_filename p)) with false
        by (symmetry; apply Z.ltb_ge; lia).
      by rewrite Hs.
    + pose proof (len_nonneg (stem p)) as H0.
      assert (len (output_filename p) = len (stem p) + 8 + len (suffix p)) as Hlen.
      { unfold output_filename. rewrite !len_app. change (len "_resized") with 8. lia. }
      replace (0 <? rfind "." (output_filename p)) with true
        by (symmetry; apply Z.ltb_lt; lia).
      replace (rfind "." (output_filename p) <? len (output_filename p) - 1) with true
        by (symmetry; apply Z.ltb_lt; lia).
      cbn [andb]. rewrite Hr. unfold slice_from, output_filename.
      rewrite <- app_assoc_str.
      replace (Z.to_nat (len (stem p) + 8)) with (String.length (stem p +:+ "_resized")).
      * apply drop_app_length.
      * rewrite length_len, len_app. change (len "_resized") with 8. done.
  - unfold stem at 1. rewrite name_output_name by done.
    destruct (rfind_output_filename p Hdot) as [(Hs & _ & Hr)|(Hs & Hr & Hl)].
    + replace (0 <? rfind "." (output_filename p)) with false
        by (symmetry; apply Z.ltb_ge; lia).
      cbn [andb]. unfold output_filename. by rewrite Hs, app_empty_r.
    + pose proof (len_nonneg (stem p)) as H0.
      assert (len (output_filename p) = len (stem p) + 8 + len (suffix p)) as Hlen.
      { unfold output_filename. rewrite !len_app. change (len "_resized") with 8. lia. }
      replace (0 <? rfind "." (output_filename p)) with true
        by (symmetry; apply Z.ltb_lt; lia).
      replace (rfind "." (output_filename p) <? len (output_filename p) - 1) with true
        by (symmetry; apply Z.ltb_lt; lia).
      cbn [andb]. rewrite Hr. unfold slice_to, output_filename.
      rewrite <- app_assoc_str.
      replace (Z.to_nat (len (stem p) + 8)) with (String.length (stem p +:+ "_resized")).
      * apply take_app_length.
      * rewrite length_len, len_app. change (len "_resized") with 8. done.
Qed.

Lemma X9_witness :
  suffix (folderResizer.output_name (PurePath "photos/x.tar.jpeg")) = ".jpeg"
  /\ stem (folderResizer.output_name (PurePath "photos/x.tar.jpeg")) = "x.tar_resized".
Proof.
  destruct (X9_output_keeps_the_suffix (PurePath "photos/x.tar.jpeg")) as (H1 & H2 & _).
  - vm_compute. repeat constructor; discriminate.
  - vm_compute. reflexivity.
  - split; [exact H1|exact H2].
Defined.

(** A name that ends in a dot is the exception: its output gets a suffix. *)
Example trailing_dot_suffix :
  suffix (PurePath "a.") = "" /\ suffix (folderResizer.output_name (PurePath "a.")) = "._resized".
Proof. split; vm_compute; reflexivity. Qed.

(** X10. No job names its own input as its output: for every path the
    constructor builds, the output argument of the command differs from
    its input argument. *)
Theorem X10_output_is_not_the_input (s : string) (m q : Z) :
  exists r,
    FFmpeg.read_command (folderResizer.command (PurePath s) m q) = Some r
    /\ FFmpeg.read_command (imageResizer.command (PurePath s) m q) = Some r
    /\ FFmpeg.output r <> FFmpeg.input r.
Proof.
  eexists. split; [reflexivity|]. split; [reflexivity|].
  cbn [FFmpeg.output FFmpeg.input]. intros Heq.
  apply (f_equal PurePath) in Heq.
  unfold folderResizer.output_name in Heq. rewrite !PurePath_as_posix in Heq.
  fold (folderResizer.output_name (PurePath s)) in Heq.
  apply (f_equal name) in Heq.
  rewrite name_output_name in Heq by apply PurePath_valid.
  apply (f_equal len) in Heq. unfold output_filename in Heq.
  rewrite <- (stem_suffix (PurePath s)), !len_app in Heq.
  change (len "_resized") with 8 in Heq. lia.
Qed.

(** X11. The paths on the command line are the paths the program
    computed: reading the input argument gives the input path back, and
    reading the output argument gives [output_name] back. *)
Theorem X11_command_line_paths_round_trip (s : string) (m q : Z) :
  exists r,
    FFmpeg.read_command (folderResizer.command (PurePath s) m q) = Some r
    /\ FFmpeg.read_command (imageResizer.command (PurePath s) m q) = Some r
    /\ PurePath (FFmpeg.input r) = PurePath s
    /\ PurePath (FFmpeg.output r) = folderResizer.output_name (PurePath s).
Proof.
  eexists. split; [reflexivity|]. split; [reflexivity|].
  cbn [FFmpeg.output FFmpeg.input]. split; [apply PurePath_as_posix|].
  unfold folderResizer.output_name. apply PurePath_as_posix.
Qed.

(** X12. The max length in effect - the one given, or 1999 - reaches every
    child of a run unchanged: the filter of each child is the [scale]
    description whose width is that number for a landscape frame and
    whose height is that number otherwise, the other side being [-1]. *)
Theorem X12_max_length_passed_through
    (exec : tool) (pool : scheduler (Path * Z * Z)) (argv : cli) (w : world) :
  well_formed argv ->
  forall main, main = folderResizer.main \/ main = imageResizer.main ->
  exists code fs' tr,
    python (main exec pool argv) w = (code, World fs' (console w ++ tr))
    /\ Forall (fun cmd => exists r,
                 FFmpeg.read_command cmd = Some r
                 /\ FFmpeg.parse_scale (FFmpeg.video_filter r)
                    = Some (FFmpeg.If (FFmpeg.Gt FFmpeg.In_w FFmpeg.In_h)
                              (FFmpeg.Num (default 1999 (given_max_length argv)))
                              (FFmpeg.Num (-1)),
                            FFmpeg.If (FFmpeg.Gt FFmpeg.In_w FFmpeg.In_h)
                              (FFmpeg.Num (-1))
                              (FFmpeg.Num (default 1999 (given_max_length argv)))))
              (spawned tr).
Proof.
  intros Hwf main Hmain.
  set (js := order pool (folderResizer.jobs (inputs argv (files w))
                           (default 1999 (given_max_length argv))
                           (default 1 (given_quality argv)))).
  assert (forall wording,
            Forall (fun cmd => exists r,
                      FFmpeg.read_command cmd = Some r
                      /\ FFmpeg.parse_scale (FFmpeg.video_filter r)
                         = Some (FFmpeg.If (FFmpeg.Gt FFmpeg.In_w FFmpeg.In_h)
                                   (FFmpeg.Num (default 1999 (given_max_length argv)))
                                   (FFmpeg.Num (-1)),
                                 FFmpeg.If (FFmpeg.Gt FFmpeg.In_w FFmpeg.In_h)
                                   (FFmpeg.Num (-1))
                                   (FFmpeg.Num (default 1999 (given_max_length argv)))))
                   (spawned (preamble wording argv (files w) ++ flat_map job_trace js
                             ++ [summary (length (inputs argv (files w)))]))) as Hjobs.
  { intros wording.
    rewrite !spawned_app, spawned_preamble, spawned_jobs, app_nil_r. cbn [app].
    apply Forall_forall. intros cmd ([[p m] q] & -> & Hj)%list_elem_of_fmap.
    subst js. rewrite (order_perm pool) in Hj. unfold folderResizer.jobs in Hj.
    apply list_elem_of_fmap in Hj as (p' & [= -> -> ->] & _).
    apply parse_scale_command. }
  destruct Hmain as [-> | ->].
  - rewrite folder_main_run by done. cbv zeta.
    destruct (decide ("resized" ∈ files w)).
    + eexists _, _, _. split; [reflexivity|].
      rewrite spawned_app, spawned_preamble. constructor.
    + eexists _, _, _. split; [reflexivity|]. apply Hjobs.
  - rewrite image_main_run by done. cbv zeta.
    destruct (decide ("resized" ∈ files w)).
    + eexists _, _, _. split; [reflexivity|].
      rewrite spawned_app, spawned_preamble. constructor.
    + eexists _, _, _. split; [reflexivity|]. apply Hjobs.
Qed.

Lemma X12_witness :
  exists code fs' tr,
    python (imageResizer.main Examples.quiet_tool Examples.fifo
              (cli_image ["a.jpg"] (Some 800) None)) Examples.scenario
    = (code, World fs' (console Examples.scenario ++ tr))
    /\ Forall (fun cmd => exists r,
                 FFmpeg.read_command cmd = Some r
                 /\ FFmpeg.parse_scale (FFmpeg.video_filter r)
                    = Some (FFmpeg.If (FFmpeg.Gt FFmpeg.In_w FFmpeg.In_h)
                              (FFmpeg.Num 800) (FFmpeg.Num (-1)),
                            FFmpeg.If (FFmpeg.Gt FFmpeg.In_w FFmpeg.In_h)
                              (FFmpeg.Num (-1)) (FFmpeg.Num 800)))
              (spawned tr).
Proof.
  apply (X12_max_length_passed_through Examples.quiet_tool Examples.fifo
           (cli_image ["a.jpg"] (Some 800) None) Examples.scenario).
  - simpl. discriminate.
  - right. reflexivity.
Defined.

(** X13. The [verbose] argument of [_process_image] only silences the
    notice: with either value the worker starts the same child, leaves
    the same file system and returns normally; without it the console
    shows the child alone. *)
Theorem X13_verbose_only_silences_the_notice
    (exec : tool) (p : Path) (m q : Z) (w : world) :
  let quiet := imageResizer._process_image exec p m q false w in
  let loud := imageResizer._process_image exec p m q true w in
  fst quiet = fst loud
  /\ files (snd quiet) = files (snd loud)
  /\ spawned (console (snd quiet)) = spawned (console (snd loud))
  /\ console (snd quiet) = (console w ++ [Spawn (imageResizer.command p m q)])%list
  /\ console (snd loud) = (console (snd quiet) ++ [Print ("Finished processing " ++ name p)])%list.
Proof.
  cbv zeta. unfold imageResizer._process_image.
  erewrite !bind_ok by reflexivity.
  unfold mret, py_ret, ret, print. cbn [fst snd files console stream].
  rewrite !app_nil_r. split; [done|]. split; [done|]. split; [|done].
  rewrite !spawned_app. cbn. by rewrite app_nil_r.
Qed.


(** X15. In directory-scan mode no two children of a run write the same
    file: the output arguments of the children started are pairwise
    distinct, for every content of the directory. *)
Theorem X15_scan_outputs_never_collide
    (exec : tool) (pool : scheduler (Path * Z * Z)) (m q : option Z) (w : world) :
  forall main, main = folderResizer.main \/ main = imageResizer.main ->
  exists code fs' tr,
    python (main exec pool (cli_folder m q)) w = (code, World fs' (console w ++ tr))
    /\ NoDup (map output_arg (spawned tr)).
Proof.
  intros main Hmain.
  set (M := default 1999 m). set (Q := default 1 q).
  assert (forall wording,
            NoDup (map output_arg
                     (spawned (preamble wording (cli_folder m q) (files w)
                               ++ flat_map job_trace
                                    (order pool (folderResizer.jobs
                                                   (inputs (cli_folder m q) (files w)) M Q))
                               ++ [summary (length (inputs (cli_folder m q) (files w)))]))))
    as Hjobs.
  { intros wording.
    rewrite !spawned_app, spawned_preamble. cbn [app spawned omap list_omap].
    rewrite app_nil_r, spawned_dispatch, map_map.
    apply (scan_outputs_distinct m q (files w) M Q). }
  destruct Hmain as [-> | ->].
  - rewrite folder_main_run by done. cbv zeta.
    destruct (decide ("resized" ∈ files w)).
    + eexists _, _, _. split; [reflexivity|].
      rewrite spawned_app, spawned_preamble. constructor.
    + eexists _, _, _. split; [reflexivity|]. apply Hjobs.
  - rewrite image_main_run by done. cbv zeta.
    destruct (decide ("resized" ∈ files w)).
    + eexists _, _, _. split; [reflexivity|].
      rewrite spawned_app, spawned_preamble. constructor.
    + eexists _, _, _. split; [reflexivity|]. apply Hjobs.
Qed.

Lemma X15_witness :
  exists code fs' tr,
    python (folderResizer.main Examples.quiet_tool Examples.lifo (cli_folder None None))
           Examples.scenario
    = (code, World fs' (console Examples.scenario ++ tr))
    /\ NoDup (map output_arg (spawned tr)).
Proof.
  apply (X15_scan_outputs_never_collide Examples.quiet_tool Examples.lifo None None
           Examples.scenario).
  left. reflexivity.
Defined.

(** X16. The program itself adds nothing to the file system but the
    output directory: when every child leaves the file system as it is -
    as when every conversion fails - a run on a well-formed command line
    without [resized] still exits with status 0 and leaves exactly the
    new, empty directory behind. *)
Theorem X16_failed_conversions_leave_an_empty_directory
    (exec : tool) (pool : scheduler (Path * Z * Z)) (argv : cli) (w : world) :
  changes_nothing exec ->
  well_formed argv ->
  as_posix (PurePath "./resized") ∉ files w ->
  forall main, main = folderResizer.main \/ main = imageResizer.main ->
  fst (python (main exec pool argv) w) = 0
  /\ files (snd (python (main exec pool argv) w))
     = {[ as_posix (PurePath "./resized") ]} ∪ files w.
Proof.
  intros Hexec Hwf Hnot main Hmain.
  change (as_posix (PurePath "./resized")) with "resized" in *.
  assert (forall js fs, files_after_jobs exec js fs = fs) as Hjobs.
  { induction js as [|[[p m] q] js IH]; intros fs; [done|].
    cbn [files_after_jobs]. by rewrite Hexec. }
  destruct Hmain as [-> | ->].
  - rewrite folder_main_run by done. cbv zeta. rewrite decide_False by done.
    cbn [fst snd files]. by rewrite Hjobs.
  - rewrite image_main_run by done. cbv zeta. rewrite decide_False by done.
    cbn [fst snd files]. by rewrite Hjobs.
Qed.

Lemma X16_witness :
  fst (python (folderResizer.main Examples.failing_tool Examples.fifo (cli_folder None None))
              Examples.scenario) = 0
  /\ files (snd (python (folderResizer.main Examples.failing_tool Examples.fifo
                           (cli_folder None None)) Examples.scenario))
     = {[ as_posix (PurePath "./resized") ]} ∪ files Examples.scenario.
Proof.
  apply (X16_failed_conversions_leave_an_empty_directory Examples.failing_tool Examples.fifo
           (cli_folder None None) Examples.scenario).
  - intros cmd fs. reflexivity.
  - exact I.
  - vm_compute. intros H. discriminate H.
  - left. reflexivity.
Defined.
